(** * Maryland Vector Hotspot Explorer: the "Run Analysis" pipeline of app.py

    A shallow embedding of the dataframe pipeline of [src/app.py]:
    grouping and counting ([groupby(...).size().reset_index(name=...)]),
    the log-normalised risk score, the fill-on-merge against the county
    reference list, the monthly and annual buckets and the handler that
    chains them.

    Conventions.
    - A dataframe is a list of rows; a missing value (NaN, NaT) is [None].
    - The key columns of a grouped table are cells ([VInt], [VStr], [VDate]);
      the counted column is an integer ([Z], pandas int64).
    - The [Risk Score] column is float64 in the program.  It is idealised
      here as a column of real numbers: [np.log1p] is [ln (1 + x)], [/] is
      real division and [round(2)] is round-half-even of the value times
      one hundred, divided by one hundred. *)

From Stdlib Require Import ZArith List String Ascii Bool Lia Reals Lra Sorted.
From Stdlib Require OrderedTypeEx.
Import ListNotations.

Open Scope string_scope.
Open Scope Z_scope.

(** ** Cells and keys *)

Inductive cell : Type :=
| VInt (z : Z)
| VStr (s : string)
| VDate (y m : Z).

(** The order pandas sorts group keys by: integers numerically, strings by
    code unit, first-of-month timestamps chronologically.  A column holds one
    kind of cell; the order between kinds only makes the comparison total. *)
Definition cell_compare (a b : cell) : comparison :=
  match a, b with
  | VInt x, VInt y => Z.compare x y
  | VInt _, _ => Lt
  | VStr _, VInt _ => Gt
  | VStr s, VStr t => String.compare s t
  | VStr _, VDate _ _ => Lt
  | VDate y1 m1, VDate y2 m2 =>
      match Z.compare y1 y2 with
      | Eq => Z.compare m1 m2
      | c => c
      end
  | VDate _ _, _ => Gt
  end.

Definition key := list cell.

Fixpoint key_compare (k1 k2 : key) : comparison :=
  match k1, k2 with
  | [], [] => Eq
  | [], _ :: _ => Lt
  | _ :: _, [] => Gt
  | a :: k1', b :: k2' =>
      match cell_compare a b with
      | Eq => key_compare k1' k2'
      | c => c
      end
  end.

Definition key_eqb (k1 k2 : key) : bool :=
  match key_compare k1 k2 with Eq => true | _ => false end.

(** ** Grouping and counting *)

(** [groupby(by).size().reset_index(name=n)]: the columns are the grouping
    columns followed by the count column; the body has one line per observed
    key, in key order. *)
Record sized : Type := mk_sized {
  columns : list string;
  body : list (key * Z)
}.

(** One more row for key [k] in a table kept in key order. *)
Fixpoint bump (k : key) (t : list (key * Z)) : list (key * Z) :=
  match t with
  | [] => [(k, 1)]
  | (k', n) :: t' =>
      match key_compare k k' with
      | Eq => (k', n + 1) :: t'
      | Lt => (k, 1) :: t
      | Gt => (k', n) :: bump k t'
      end
  end.

(** The key of a row for the grouping columns [by]; [None] when one of them
    is missing in the row (pandas drops such rows: [dropna=True]). *)
Fixpoint row_key {A : Type} (col : string -> A -> option cell)
    (by_ : list string) (r : A) : option key :=
  match by_ with
  | [] => Some []
  | c :: by' =>
      match col c r, row_key col by' r with
      | Some v, Some k => Some (v :: k)
      | _, _ => None
      end
  end.

Definition count_rows {A : Type} (col : string -> A -> option cell)
    (by_ : list string) (df : list A) : list (key * Z) :=
  fold_left
    (fun t r => match row_key col by_ r with
                | Some k => bump k t
                | None => t
                end)
    df [].

Definition groupby_size {A : Type} (col : string -> A -> option cell)
    (by_ : list string) (name : string) (df : list A) : sized :=
  {| columns := by_ ++ [name]; body := count_rows col by_ df |}.

(** The value of column [c] in a line of a grouped table. *)
Fixpoint key_col (cols : list string) (c : string) (k : key) : option cell :=
  match cols, k with
  | c' :: cols', v :: k' =>
      if String.eqb c' c then Some v else key_col cols' c k'
  | _, _ => None
  end.

(** ** The dataframes of the run *)

(** A record of [df_occ] after the date fields are cleaned (app.py 85-91):
    [year] and [month] are integers, [year_month] is the first day of the
    month or NaT, [queried_scientificName] is the species of the run.  The
    coordinates and the provider's other columns are [meta]. *)
Record occ (P : Type) : Type := mk_occ {
  year : Z;
  month : Z;
  year_month : option (Z * Z);
  queried_scientificName : string;
  meta : P
}.
Arguments mk_occ {P}.
Arguments year {P}.
Arguments month {P}.
Arguments year_month {P}.
Arguments queried_scientificName {P}.
Arguments meta {P}.

(** A row of [gdf_joined]: the occurrence and the county it was assigned to.
    The program guards the county column with [dropna()] (app.py 54), so it
    is modelled as possibly missing. *)
Record joined (P : Type) : Type := mk_joined {
  occurrence : occ P;
  NAME_2 : option string
}.
Arguments mk_joined {P}.
Arguments occurrence {P}.
Arguments NAME_2 {P}.

Definition occ_col {P : Type} (c : string) (r : occ P) : option cell :=
  if String.eqb c "year" then Some (VInt (year r))
  else if String.eqb c "month" then Some (VInt (month r))
  else if String.eqb c "year_month" then
    option_map (fun ym => VDate (fst ym) (snd ym)) (year_month r)
  else if String.eqb c "queried_scientificName" then
    Some (VStr (queried_scientificName r))
  else None.

Definition joined_col {P : Type} (c : string) (j : joined P) : option cell :=
  if String.eqb c "NAME_2" then option_map VStr (NAME_2 j)
  else occ_col c (occurrence j).

(** ** The risk score (app.py 98-106) *)

Definition log1p (x : R) : R := ln (1 + x).

(** [Series.max()].  On an empty column pandas answers NaN, which then only
    divides an empty column; [0] stands for it. *)
Definition series_max (s : list R) : R :=
  match s with
  | [] => 0%R
  | x :: s' => fold_left Rmax s' x
  end.

(** Round to the nearest integer, ties to the even one. *)
Definition rint (x : R) : Z :=
  let f := Zfloor x in
  let d := (x - IZR f)%R in
  if Rlt_dec d (1 / 2) then f
  else if Rlt_dec (1 / 2) d then f + 1
  else if Z.even f then f else f + 1.

(** [Series.round(2)]. *)
Definition round2 (x : R) : R := (IZR (rint (x * 100)) / 100)%R.

(** The three assignments to the [Risk Score] column, from the
    [occurrence_count] column. *)
Definition risk_score_column (counts : list Z) : list R :=
  let applied := map (fun c => log1p (IZR c)) counts in
  let top := series_max applied in
  let divided := map (fun x => (x / top)%R) applied in
  map round2 divided.

Record agg_row : Type := mk_agg {
  group : key;
  occurrence_count : Z;
  Risk_Score : R
}.

Record scored : Type := mk_scored {
  agg_columns : list string;
  agg_rows : list agg_row
}.

Definition county_counts {P : Type} (gdf_joined : list (joined P)) : scored :=
  let t := groupby_size joined_col ["NAME_2"; "queried_scientificName"]
             "occurrence_count" gdf_joined in
  let risk := risk_score_column (map snd (body t)) in
  {| agg_columns := columns t ++ ["Risk Score"];
     agg_rows := map (fun kr => mk_agg (fst (fst kr)) (snd (fst kr)) (snd kr))
                     (combine (body t) risk) |}.

Definition cell_str (v : cell) : option string :=
  match v with VStr s => Some s | _ => None end.

(** The string held by column [c] of an aggregate row. *)
Definition agg_str (t : scored) (c : string) (r : agg_row) : option string :=
  match key_col (agg_columns t) c (group r) with
  | Some v => cell_str v
  | None => None
  end.

Definition agg_county (t : scored) (c : string) (r : agg_row) : bool :=
  match agg_str t "NAME_2" r with
  | Some c' => String.eqb c' c
  | None => false
  end.

(** [county_counts.set_index("NAME_2")["Risk Score"].to_dict()] followed by
    [.get(c, 0)]: the score of the last row of county [c], else 0. *)
Definition scores_get (t : scored) (c : string) : R :=
  match rev (filter (agg_county t c) (agg_rows t)) with
  | r :: _ => Risk_Score r
  | [] => 0%R
  end.

(** ** The hotspot map table (app.py 120-125) *)

Record county_feature (G : Type) : Type := mk_feature {
  g_NAME_2 : string;
  geometry : G
}.
Arguments mk_feature {G}.
Arguments g_NAME_2 {G}.
Arguments geometry {G}.

(** A row of the left join, before [fillna]: the columns that come from
    [county_counts] are missing when the county has no aggregate row. *)
Record left_row (G : Type) : Type := mk_left {
  l_NAME_2 : string;
  l_geometry : G;
  l_species : option string;
  l_occurrence_count : option Z;
  l_Risk_Score : option R
}.
Arguments mk_left {G}.
Arguments l_NAME_2 {G}.
Arguments l_geometry {G}.
Arguments l_species {G}.
Arguments l_occurrence_count {G}.
Arguments l_Risk_Score {G}.

Record merged_row (G : Type) : Type := mk_merged {
  m_NAME_2 : string;
  m_geometry : G;
  m_species : option string;
  m_occurrence_count : Z;
  m_Risk_Score : R
}.
Arguments mk_merged {G}.
Arguments m_NAME_2 {G}.
Arguments m_geometry {G}.
Arguments m_species {G}.
Arguments m_occurrence_count {G}.
Arguments m_Risk_Score {G}.

(** [county_geo.merge(county_counts, on="NAME_2", how="left")]: the
    reference rows in their order, each with its matching aggregate rows, or
    once with missing values when it has none. *)
Definition merge_left {G : Type} (county_geo : list (county_feature G))
    (t : scored) : list (left_row G) :=
  flat_map
    (fun g =>
       match filter (agg_county t (g_NAME_2 g)) (agg_rows t) with
       | [] => [mk_left (g_NAME_2 g) (geometry g) None None None]
       | found =>
           map (fun r => mk_left (g_NAME_2 g) (geometry g)
                           (agg_str t "queried_scientificName" r)
                           (Some (occurrence_count r))
                           (Some (Risk_Score r)))
               found
       end)
    county_geo.

(** [.fillna({"Risk Score": 0, "occurrence_count": 0})]. *)
Definition fillna_scores {G : Type} (rows : list (left_row G))
    : list (merged_row G) :=
  map (fun r => mk_merged (l_NAME_2 r) (l_geometry r) (l_species r)
                  (match l_occurrence_count r with Some n => n | None => 0 end)
                  (match l_Risk_Score r with Some x => x | None => 0%R end))
      rows.

Definition merged {G P : Type} (county_geo : list (county_feature G))
    (gdf_joined : list (joined P)) : list (merged_row G) :=
  fillna_scores (merge_left county_geo (county_counts gdf_joined)).

(** ** Monthly and annual buckets (app.py 144-205) *)

(** [gdf_joined["NAME_2"].isin(county_selection)]; a missing county is in no
    selection. *)
Definition isin {P : Type} (county_selection : list string) (j : joined P)
    : bool :=
  match NAME_2 j with
  | Some c => existsb (String.eqb c) county_selection
  | None => false
  end.

(** [compare_counties and len(county_selection) == 2]. *)
Definition comparing (compare_counties : bool)
    (county_selection : list string) : bool :=
  compare_counties && Nat.eqb (List.length county_selection) 2.

Definition monthly_counts {P : Type} (compare_counties : bool)
    (county_selection : list string) (df_occ : list (occ P))
    (gdf_joined : list (joined P)) : sized :=
  if comparing compare_counties county_selection then
    groupby_size joined_col
      ["year_month"; "queried_scientificName"; "NAME_2"] "count"
      (filter (isin county_selection) gdf_joined)
  else
    groupby_size occ_col ["year_month"; "queried_scientificName"] "count"
      df_occ.

Definition annual_counts {P : Type} (compare_counties : bool)
    (county_selection : list string) (df_occ : list (occ P))
    (gdf_joined : list (joined P)) : sized :=
  if comparing compare_counties county_selection then
    groupby_size joined_col ["year"; "NAME_2"] "count"
      (filter (isin county_selection) gdf_joined)
  else
    groupby_size occ_col ["year"; "queried_scientificName"] "count" df_occ.

(** ** The Run Analysis handler (app.py 64-215) *)

(** A record as the fetch returns it: [year] and [month] may be missing. *)
Record fetched (P : Type) : Type := mk_fetched {
  f_year : option Z;
  f_month : option Z;
  f_meta : P
}.
Arguments mk_fetched {P}.
Arguments f_year {P}.
Arguments f_month {P}.
Arguments f_meta {P}.

(** Lines 75 and 85-91: the species column is set, records without year or
    month are dropped, and [year_month] is added.  [to_datetime y m] is
    [pd.to_datetime(dict(year=y, month=m, day=1), errors="coerce")]: the
    first day of the month as (year, month), or NaT. *)
Definition clean_dates {P : Type} (to_datetime : Z -> Z -> option (Z * Z))
    (selected_species : string) (df : list (fetched P)) : list (occ P) :=
  flat_map
    (fun r =>
       match f_year r, f_month r with
       | Some y, Some m => [mk_occ y m (to_datetime y m) selected_species (f_meta r)]
       | _, _ => []
       end)
    df.

Inductive figure (G : Type) : Type :=
| Choropleth (table : list (merged_row G))
| Line (title : string) (table : sized)
| Bar (title : string) (table : sized).
Arguments Choropleth {G}.
Arguments Line {G}.
Arguments Bar {G}.

(** What the handler puts on the page, in order. *)
Inductive ui_event (G : Type) : Type :=
| St_info (msg : string)
| St_error (msg : string)
| St_warning (msg : string)
| St_scores (county0 : string) (score0 : R) (county1 : string) (score1 : R)
| St_success (records : nat)
| St_subheader (msg : string)
| St_plotly_chart (fig : figure G).
Arguments St_info {G}.
Arguments St_error {G}.
Arguments St_warning {G}.
Arguments St_scores {G}.
Arguments St_success {G}.
Arguments St_subheader {G}.
Arguments St_plotly_chart {G}.

(** The sidebar inputs. *)
Record controls : Type := mk_controls {
  selected_species : string;
  year_range : Z * Z;
  show_monthly : bool;
  compare_counties : bool;
  multiselect : list string
}.

(** [st.session_state]. *)
Record session (P : Type) : Type := mk_session {
  ss_gdf_joined : option (list (joined P));
  ss_county_selection : list string
}.
Arguments mk_session {P}.
Arguments ss_gdf_joined {P}.
Arguments ss_county_selection {P}.

(** The tables a completed run has computed. *)
Record tables (G P : Type) : Type := mk_tables {
  t_df_occ : list (occ P);
  t_gdf_joined : list (joined P);
  t_county_counts : scored;
  t_merged : list (merged_row G);
  t_monthly_counts : option sized;
  t_annual_counts : sized
}.
Arguments mk_tables {G P}.
Arguments t_df_occ {G P}.
Arguments t_gdf_joined {G P}.
Arguments t_county_counts {G P}.
Arguments t_merged {G P}.
Arguments t_monthly_counts {G P}.
Arguments t_annual_counts {G P}.

(** A run either stops early ([st.stop()]) or runs to the end of the script. *)
Inductive run (G P : Type) : Type :=
| Stopped (shown : list (ui_event G)) (s : session P)
| Finished (shown : list (ui_event G)) (s : session P) (out : tables G P).
Arguments Stopped {G P}.
Arguments Finished {G P}.

Definition shown {G P : Type} (r : run G P) : list (ui_event G) :=
  match r with Stopped e _ => e | Finished e _ _ => e end.

Definition session_after {G P : Type} (r : run G P) : session P :=
  match r with Stopped _ s => s | Finished _ s _ => s end.

Definition results {G P : Type} (r : run G P) : option (tables G P) :=
  match r with Stopped _ _ => None | Finished _ _ out => Some out end.

Section Handler.

Variables G P : Type.

(** The three functions of [fetch_and_prepare], the date assembly of
    pandas and the county file.  A function that may raise answers [inl]
    with the text of the exception. *)
Variable get_taxon_key : string -> string + Z.
Variable fetch_occurrences_for_taxon :
  Z -> string -> string -> Z -> Z -> string + list (fetched P).
Variable assign_to_counties : list (occ P) -> list (joined P).
Variable to_datetime : Z -> Z -> option (Z * Z).
Variable county_geo : list (county_feature G).

(** Lines 49-61: the county selector. *)
Definition sidebar (c : controls) (s : session P)
    : list string * session P :=
  if compare_counties c then
    match ss_gdf_joined s with
    | None => ([], s)
    | Some _ =>
        (multiselect c, mk_session (ss_gdf_joined s) (multiselect c))
    end
  else ([], s).

(** The body of the [try] (lines 67-75). *)
Definition fetch (c : controls) : string + list (fetched P) :=
  match get_taxon_key (selected_species c) with
  | inl e => inl e
  | inr key =>
      fetch_occurrences_for_taxon key "US" "Maryland"
        (fst (year_range c)) (snd (year_range c))
  end.

Definition monthly_figure (comparing_now : bool) (t : sized) : figure G :=
  if comparing_now then Line "Monthly Occurrence Comparison by County" t
  else Line "Monthly Occurrence Counts" t.

Definition annual_figure (comparing_now : bool) (t : sized) : figure G :=
  if comparing_now then Line "Annual Occurrence Comparison by County" t
  else Bar "Annual Occurrence Counts by Species" t.

Definition run_analysis (c : controls) (s0 : session P) : run G P :=
  let (county_selection, s) := sidebar c s0 in
  let fetching := St_info "Fetching live GBIF data…" in
  match fetch c with
  | inl e =>
      Stopped
        [fetching;
         St_error ("Failed to fetch " ++ selected_species c ++ ": " ++ e)]
        s
  | inr [] =>
      Stopped
        [fetching; St_warning "No records retrieved. Try adjusting filters."]
        s
  | inr fetched_rows =>
      let df_occ := clean_dates to_datetime (selected_species c) fetched_rows in
      let gdf_joined := assign_to_counties df_occ in
      let s' := mk_session (Some gdf_joined) (ss_county_selection s) in
      let cc := county_counts gdf_joined in
      let cmp := comparing (compare_counties c) county_selection in
      let up_front :=
        if cmp then
          [St_scores (nth 0 county_selection "")
                     (scores_get cc (nth 0 county_selection ""))
                     (nth 1 county_selection "")
                     (scores_get cc (nth 1 county_selection ""))]
        else [] in
      let map_table := merged county_geo gdf_joined in
      let monthly :=
        if show_monthly c then
          Some (monthly_counts (compare_counties c) county_selection
                  df_occ gdf_joined)
        else None in
      let annual :=
        annual_counts (compare_counties c) county_selection df_occ gdf_joined in
      Finished
        ([fetching] ++ up_front
         ++ [St_success (List.length df_occ);
             St_subheader "Hotspot Map";
             St_plotly_chart (Choropleth map_table)]
         ++ match monthly with
            | Some t =>
                [St_subheader "Monthly Presence Over Time";
                 St_plotly_chart (monthly_figure cmp t)]
            | None => []
            end
         ++ [St_subheader "Annual Presence Summary";
             St_plotly_chart (annual_figure cmp annual)])
        s'
        (mk_tables df_occ gdf_joined cc map_table monthly annual)
  end.

End Handler.

(** ** Reading a counted table *)

Definition lookup (k : key) (t : list (key * Z)) : option Z :=
  match find (fun kn => key_eqb (fst kn) k) t with
  | Some kn => Some (snd kn)
  | None => None
  end.

Definition total (t : list (key * Z)) : Z := fold_right Z.add 0 (map snd t).

Definition keyed {A : Type} (col : string -> A -> option cell)
    (by_ : list string) (r : A) : bool :=
  match row_key col by_ r with Some _ => true | None => false end.

Definition has_key {A : Type} (col : string -> A -> option cell)
    (by_ : list string) (k : key) (r : A) : bool :=
  match row_key col by_ r with Some k' => key_eqb k' k | None => false end.

Definition key_lt (a b : key * Z) : Prop := key_compare (fst a) (fst b) = Lt.

Definition key_sorted (t : list (key * Z)) : Prop := StronglySorted key_lt t.

(** The grouping columns of the three kinds of table. *)
Definition county_by : list string := ["NAME_2"; "queried_scientificName"].

Definition monthly_by : list string := ["year_month"; "queried_scientificName"].

Definition annual_by : list string := ["year"; "queried_scientificName"].

(** A joined row whose county is not missing: the rows the grouping by
    county keeps. *)
Definition has_county {P : Type} (j : joined P) : bool :=
  match NAME_2 j with Some _ => true | None => false end.

(** The largest value of an int64, the type of a pandas row count. *)
Definition int64_max : Z := 2 ^ 63 - 1.

(** ** The specification's wording of the risk score *)

Definition is_max (m : R) (s : list R) : Prop :=
  In m s /\ forall x, In x s -> (x <= m)%R.

Definition rounded_2dp (x y : R) : Prop :=
  exists k : Z, y = (IZR k / 100)%R /\ (Rabs (y - x) <= 5 / 1000)%R.

(** The score the specification gives to a group of count [c] in a run whose
    groups have the counts [counts]. *)
Definition spec_risk_score (counts : list Z) (c : Z) (y : R) : Prop :=
  exists top : R,
    is_max top (map (fun c' => ln (1 + IZR c')) counts)
    /\ rounded_2dp (ln (1 + IZR c) / top) y.

Definition sum_counts (rows : list agg_row) : Z :=
  fold_right Z.add 0 (map occurrence_count rows).

(** The score column, one count at a time. *)
Definition score_among (counts : list Z) (c : Z) : R :=
  round2 (log1p (IZR c) / series_max (map (fun c' => log1p (IZR c')) counts)).

(** ** Rows kept and dropped *)

(** A fetched record with both date fields: what [dropna(subset=["year",
    "month"])] keeps. *)
Definition has_dates {P : Type} (r : fetched P) : bool :=
  match f_year r, f_month r with
  | Some _, Some _ => true
  | _, _ => false
  end.

(** An occurrence whose [year_month] is not NaT. *)
Definition dated {P : Type} (o : occ P) : bool :=
  match year_month o with Some _ => true | None => false end.

(** Every joined row is of species [sp], as in a run, where line 75 sets the
    species column to the selected species. *)
Definition same_species {P : Type} (sp : string) (gdf_joined : list (joined P))
    : Prop :=
  forall j, In j gdf_joined -> queried_scientificName (occurrence j) = sp.

(** ** A small run, used to exercise the theorems *)

Definition ex_row (county : option string) (y m : Z) : joined unit :=
  mk_joined (mk_occ y m (Some (y, m)) "Aedes albopictus" tt) county.

Definition ex_joined : list (joined unit) :=
  [ex_row (Some "Howard") 2021 6; ex_row (Some "Kent") 2021 7;
   ex_row (Some "Howard") 2022 6; ex_row (Some "Howard") 2022 8].

(** A joined set whose only row has no county, and one where one row of two
    has none. *)
Definition ex_unassigned : list (joined unit) := [ex_row None 2021 6].

Definition ex_partly_assigned : list (joined unit) :=
  [ex_row (Some "Howard") 2021 6; ex_row None 2021 7].

Definition ex_howard : agg_row :=
  mk_agg [VStr "Howard"; VStr "Aedes albopictus"] 3 (score_among [3; 1] 3).

Definition ex_kent : agg_row :=
  mk_agg [VStr "Kent"; VStr "Aedes albopictus"] 1 (score_among [3; 1] 1).

Definition ex_geo : list (county_feature nat) :=
  [mk_feature "Howard" 1%nat; mk_feature "Garrett" 2%nat;
   mk_feature "Kent" 3%nat].

Definition ex_df_occ : list (occ unit) := map occurrence ex_joined.

Definition ex_fetched : list (fetched unit) :=
  [mk_fetched (Some 2021) (Some 6) tt; mk_fetched (Some 2021) None tt;
   mk_fetched (Some 2022) (Some 8) tt].

Definition ex_get_taxon_key (name : string) : string + Z :=
  if String.eqb name "Aedes albopictus" then inr 1651430
  else inl "no match".

Definition ex_fetch_down (key : Z) (country state : string) (y0 y1 : Z)
    : string + list (fetched unit) :=
  inl "HTTP 503".

Definition ex_fetch_nothing (key : Z) (country state : string) (y0 y1 : Z)
    : string + list (fetched unit) :=
  inr [].

Definition ex_fetch (key : Z) (country state : string) (y0 y1 : Z)
    : string + list (fetched unit) :=
  inr ex_fetched.

Definition ex_assign (df : list (occ unit)) : list (joined unit) :=
  map (fun o => mk_joined o (Some "Howard")) df.

Definition ex_controls : controls :=
  mk_controls "Aedes albopictus" (2020, 2023) true false [].

Definition ex_controls_comparing : controls :=
  mk_controls "Aedes albopictus" (2020, 2023) false true ["Howard"; "Kent"].

Definition ex_to_datetime (y m : Z) : option (Z * Z) :=
  if (1 <=? m) && (m <=? 12) then Some (y, m) else None.

Definition ex_session : session unit := mk_session None [].

Definition ex_fetch_undated (key : Z) (country state : string) (y0 y1 : Z)
    : string + list (fetched unit) :=
  inr [mk_fetched (Some 2021) None tt; mk_fetched None (Some 3) tt].

(** * Properties *)

(** ** The order on keys *)

Ltac zcmp :=
  repeat match goal with
         | H : context [Z.compare ?a ?b] |- _ => destruct (Z.compare_spec a b)
         | |- context [Z.compare ?a ?b] => destruct (Z.compare_spec a b)
         end;
  subst; simpl in *; try lia; try congruence.

Lemma string_compare_refl (s : string) : String.compare s s = Eq.
Proof. apply OrderedTypeEx.String_as_OT.cmp_eq; reflexivity. Qed.

Lemma string_compare_trans (a b c : string) :
  String.compare a b = Lt -> String.compare b c = Lt -> String.compare a c = Lt.
Proof.
  intros H1 H2.
  apply OrderedTypeEx.String_as_OT.cmp_lt.
  apply OrderedTypeEx.String_as_OT.cmp_lt in H1, H2.
  eapply OrderedTypeEx.String_as_OT.lt_trans; eassumption.
Qed.

Lemma cell_compare_eq (a b : cell) : cell_compare a b = Eq -> a = b.
Proof.
  destruct a, b; simpl; try discriminate.
  - intros H; apply Z.compare_eq in H; congruence.
  - intros H; apply String.compare_eq_iff in H; congruence.
  - intros H; zcmp.
Qed.

Lemma cell_compare_refl (a : cell) : cell_compare a a = Eq.
Proof.
  destruct a; simpl.
  - apply Z.compare_refl.
  - apply string_compare_refl.
  - rewrite !Z.compare_refl; reflexivity.
Qed.

Lemma cell_compare_antisym (a b : cell) :
  cell_compare b a = CompOpp (cell_compare a b).
Proof.
  destruct a, b; simpl; try reflexivity.
  - apply Z.compare_antisym.
  - apply String.compare_antisym.
  - rewrite (Z.compare_antisym y y0), (Z.compare_antisym m m0).
    destruct (y ?= y0); reflexivity.
Qed.

Lemma cell_compare_trans (a b c : cell) :
  cell_compare a b = Lt -> cell_compare b c = Lt -> cell_compare a c = Lt.
Proof.
  destruct a, b, c; simpl; try congruence.
  - intros; zcmp.
  - apply string_compare_trans.
  - intros; zcmp.
Qed.

Lemma key_compare_eq (a b : key) : key_compare a b = Eq -> a = b.
Proof.
  revert b; induction a as [|x a IH]; intros [|y b]; simpl; try congruence.
  destruct (cell_compare x y) eqn:E; try discriminate.
  intros H; apply cell_compare_eq in E; apply IH in H; congruence.
Qed.

Lemma key_compare_refl (a : key) : key_compare a a = Eq.
Proof.
  induction a as [|x a IH]; simpl; [reflexivity|].
  rewrite cell_compare_refl; exact IH.
Qed.

Lemma key_compare_antisym (a b : key) :
  key_compare b a = CompOpp (key_compare a b).
Proof.
  revert b; induction a as [|x a IH]; intros [|y b]; simpl; try reflexivity.
  rewrite (cell_compare_antisym x y).
  destruct (cell_compare x y); simpl; auto.
Qed.

Lemma key_compare_trans (a b c : key) :
  key_compare a b = Lt -> key_compare b c = Lt -> key_compare a c = Lt.
Proof.
  revert b c; induction a as [|x a IH]; intros [|y b] [|z c]; simpl;
    try congruence.
  destruct (cell_compare x y) eqn:Exy; try discriminate;
    destruct (cell_compare y z) eqn:Eyz; try discriminate; intros H1 H2.
  - apply cell_compare_eq in Exy, Eyz; subst.
    rewrite cell_compare_refl; eauto.
  - apply cell_compare_eq in Exy; subst; rewrite Eyz; reflexivity.
  - apply cell_compare_eq in Eyz; subst; rewrite Exy; reflexivity.
  - rewrite (cell_compare_trans _ _ _ Exy Eyz); reflexivity.
Qed.

Lemma key_eqb_eq (a b : key) : key_eqb a b = true <-> a = b.
Proof.
  unfold key_eqb; split.
  - destruct (key_compare a b) eqn:E; try discriminate.
    intros _; apply key_compare_eq; exact E.
  - intros ->; rewrite key_compare_refl; reflexivity.
Qed.

(** ** One more row in a counted table *)

Lemma bump_total (k : key) (t : list (key * Z)) : total (bump k t) = total t + 1.
Proof.
  unfold total; induction t as [|[k' n] t IH]; [reflexivity|].
  cbn [bump]; destruct (key_compare k k'); cbn [map fold_right snd] in *; lia.
Qed.

Lemma bump_positive (k : key) (t : list (key * Z)) :
  Forall (fun kn => 1 <= snd kn) t -> Forall (fun kn => 1 <= snd kn) (bump k t).
Proof.
  induction 1 as [|[k' n] t Hn Ht IH]; simpl.
  - constructor; [simpl; lia|constructor].
  - destruct (key_compare k k'); repeat constructor; simpl in *; auto; lia.
Qed.

Lemma bump_keys (k : key) (t : list (key * Z)) (kn : key * Z) :
  In kn (bump k t) -> fst kn = k \/ In (fst kn) (map fst t).
Proof.
  induction t as [|[k' n] t IH]; simpl.
  - intros [<-|[]]; auto.
  - destruct (key_compare k k') eqn:E; simpl.
    + intros [<-|H]; simpl; auto. right; right; apply in_map; exact H.
    + intros [<-|[<-|H]]; simpl; auto. right; right; apply in_map; exact H.
    + intros [<-|H]; simpl; auto. destruct (IH H); auto.
Qed.

Lemma bump_sorted (k : key) (t : list (key * Z)) :
  key_sorted t -> key_sorted (bump k t).
Proof.
  unfold key_sorted; induction 1 as [|[k' n] t Ht IH Hall]; simpl.
  - repeat constructor.
  - destruct (key_compare k k') eqn:E.
    + constructor; auto.
    + constructor; [constructor; auto|].
      constructor; [exact E|].
      rewrite Forall_forall in *; intros x Hx; unfold key_lt in *; simpl in *.
      eapply key_compare_trans; [exact E|apply (Hall x Hx)].
    + constructor; [exact IH|].
      rewrite Forall_forall in *; intros x Hx; unfold key_lt; simpl.
      destruct (bump_keys _ _ _ Hx) as [->|Hin].
      * rewrite key_compare_antisym, E; reflexivity.
      * apply in_map_iff in Hin; destruct Hin as [y [Hy Hin]].
        rewrite <- Hy; apply (Hall y Hin).
Qed.

Lemma lookup_below (k : key) (t : list (key * Z)) :
  Forall (fun kn => key_compare k (fst kn) = Lt) t -> lookup k t = None.
Proof.
  unfold lookup; induction 1 as [|[k' n] t Hk Ht IH]; simpl; [reflexivity|].
  unfold key_eqb at 1; simpl in *.
  rewrite key_compare_antisym, Hk; simpl; exact IH.
Qed.

Lemma lookup_cons (k k' : key) (n : Z) (t : list (key * Z)) :
  lookup k ((k', n) :: t) = if key_eqb k' k then Some n else lookup k t.
Proof. unfold lookup; simpl; destruct (key_eqb k' k); reflexivity. Qed.

Lemma bump_lookup (k k' : key) (t : list (key * Z)) :
  key_sorted t ->
  lookup k (bump k' t) =
  if key_eqb k' k
  then Some (match lookup k t with Some n => n + 1 | None => 1 end)
  else lookup k t.
Proof.
  unfold key_sorted; induction 1 as [|[h n] t Ht IH Hall]; simpl.
  - rewrite lookup_cons; reflexivity.
  - destruct (key_compare k' h) eqn:E.
    + apply key_compare_eq in E; subst h.
      rewrite !lookup_cons; destruct (key_eqb k' k); reflexivity.
    + rewrite !lookup_cons.
      destruct (key_eqb k' k) eqn:Ek; [|reflexivity].
      apply key_eqb_eq in Ek; subst k'.
      replace (key_eqb h k) with false
        by (unfold key_eqb; rewrite key_compare_antisym, E; reflexivity).
      rewrite lookup_below; [reflexivity|].
      rewrite Forall_forall in *; intros x Hx.
      eapply key_compare_trans; [exact E|apply (Hall x Hx)].
    + rewrite !lookup_cons, IH.
      destruct (key_eqb h k) eqn:Eh; [|reflexivity].
      apply key_eqb_eq in Eh; subst h.
      replace (key_eqb k' k) with false
        by (unfold key_eqb; rewrite E; reflexivity).
      reflexivity.
Qed.

Lemma lookup_In (k : key) (n : Z) (t : list (key * Z)) :
  key_sorted t -> (In (k, n) t <-> lookup k t = Some n).
Proof.
  unfold key_sorted; induction 1 as [|[h c] t Ht IH Hall]; simpl.
  - split; [intros []|discriminate].
  - rewrite lookup_cons; split.
    + intros [H|H].
      * inversion H; subst. rewrite (proj2 (key_eqb_eq k k) eq_refl); reflexivity.
      * replace (key_eqb h k) with false; [apply IH; exact H|].
        rewrite Forall_forall in Hall; specialize (Hall _ H).
        unfold key_lt in Hall; simpl in Hall.
        unfold key_eqb; rewrite Hall; reflexivity.
    + destruct (key_eqb h k) eqn:E.
      * apply key_eqb_eq in E; subst; intros [= ->]; auto.
      * intros H; right; apply IH; exact H.
Qed.

(** ** Counting a dataframe *)

Section Grouping.

Context {A : Type} (col : string -> A -> option cell) (by_ : list string).

Local Abbreviation step :=
  (fun t r => match row_key col by_ r with
              | Some k => bump k t
              | None => t
              end).

Lemma fold_sorted (df : list A) (t0 : list (key * Z)) :
  key_sorted t0 -> key_sorted (fold_left step df t0).
Proof.
  revert t0; induction df as [|r df IH]; intros t0 H; simpl; [exact H|].
  apply IH; destruct (row_key col by_ r); [apply bump_sorted|]; exact H.
Qed.

Lemma fold_total (df : list A) (t0 : list (key * Z)) :
  total (fold_left step df t0)
  = total t0 + Z.of_nat (List.length (filter (keyed col by_) df)).
Proof.
  revert t0; induction df as [|r df IH]; intros t0; simpl; [lia|].
  rewrite IH; unfold keyed at 2.
  destruct (row_key col by_ r); simpl List.length;
    [rewrite bump_total|]; lia.
Qed.

Lemma fold_positive (df : list A) (t0 : list (key * Z)) :
  Forall (fun kn => 1 <= snd kn) t0 ->
  Forall (fun kn => 1 <= snd kn) (fold_left step df t0).
Proof.
  revert t0; induction df as [|r df IH]; intros t0 H; simpl; [exact H|].
  apply IH; destruct (row_key col by_ r); [apply bump_positive|]; exact H.
Qed.

Lemma fold_keys (df : list A) (t0 : list (key * Z)) (kn : key * Z) :
  In kn (fold_left step df t0) ->
  In (fst kn) (map fst t0)
  \/ exists r, In r df /\ row_key col by_ r = Some (fst kn).
Proof.
  revert t0; induction df as [|r df IH]; intros t0; simpl.
  - intros H; left; apply in_map; exact H.
  - intros H; apply IH in H; destruct H as [H|[r' [Hr' Hk]]].
    + destruct (row_key col by_ r) as [k|] eqn:E; [|auto].
      apply in_map_iff in H; destruct H as [y [Hy Hin]].
      destruct (bump_keys _ _ _ Hin) as [Hk|Hk].
      * right; exists r; split; [auto|congruence].
      * left; congruence.
    + right; exists r'; auto.
Qed.

Lemma fold_lookup (k : key) (df : list A) (t0 : list (key * Z)) :
  key_sorted t0 ->
  lookup k (fold_left step df t0)
  = match List.length (filter (has_key col by_ k) df) with
    | O => lookup k t0
    | S m => Some (match lookup k t0 with Some n => n | None => 0 end
                   + Z.of_nat (S m))
    end.
Proof.
  revert t0; induction df as [|r df IH]; intros t0 H;
    cbn [fold_left filter]; [reflexivity|].
  assert (Hk : has_key col by_ k r
               = match row_key col by_ r with
                 | Some k' => key_eqb k' k
                 | None => false
                 end) by reflexivity.
  destruct (row_key col by_ r) as [k'|] eqn:E; rewrite Hk.
  - rewrite IH by (apply bump_sorted; exact H).
    rewrite bump_lookup by exact H.
    destruct (key_eqb k' k); cbn [List.length];
      destruct (List.length (filter (has_key col by_ k) df));
      destruct (lookup k t0); try reflexivity; f_equal; lia.
  - rewrite IH by exact H; reflexivity.
Qed.

Lemma count_rows_sorted (df : list A) : key_sorted (count_rows col by_ df).
Proof. apply fold_sorted; constructor. Qed.

Lemma count_rows_total (df : list A) :
  total (count_rows col by_ df)
  = Z.of_nat (List.length (filter (keyed col by_) df)).
Proof. unfold count_rows; rewrite fold_total; reflexivity. Qed.

Lemma count_rows_positive (df : list A) (k : key) (n : Z) :
  In (k, n) (count_rows col by_ df) -> 1 <= n.
Proof.
  intros H.
  assert (F : Forall (fun kn => 1 <= snd kn) (count_rows col by_ df))
    by (apply fold_positive; constructor).
  rewrite Forall_forall in F; apply (F _ H).
Qed.

Lemma count_rows_observed (df : list A) (k : key) (n : Z) :
  In (k, n) (count_rows col by_ df) ->
  exists r, In r df /\ row_key col by_ r = Some k.
Proof.
  intros H; destruct (fold_keys _ _ _ H) as [[]|H']; exact H'.
Qed.

(** A key appears in the counted table exactly when some row has it, and
    then with the number of those rows. *)
Lemma count_rows_In (df : list A) (k : key) (n : Z) :
  In (k, n) (count_rows col by_ df)
  <-> n = Z.of_nat (List.length (filter (has_key col by_ k) df)) /\ 1 <= n.
Proof.
  rewrite (lookup_In k n _ (count_rows_sorted df)).
  unfold count_rows; rewrite fold_lookup by constructor.
  destruct (List.length (filter (has_key col by_ k) df)); simpl lookup.
  - split; [discriminate|intros [-> H]; simpl in H; lia].
  - split; [intros [= <-]; split; lia|intros [-> _]; f_equal; lia].
Qed.

End Grouping.

(** ** Real columns *)

Section RealColumn.

Local Open Scope R_scope.

Lemma fold_Rmax_ge_init (s : list R) (a : R) : a <= fold_left Rmax s a.
Proof.
  revert a; induction s as [|x s IH]; intros a; simpl; [lra|].
  eapply Rle_trans; [apply (Rmax_l a x)|apply IH].
Qed.

Lemma fold_Rmax_ge (s : list R) (a x : R) :
  In x s -> x <= fold_left Rmax s a.
Proof.
  revert a; induction s as [|y s IH]; intros a; simpl; [intros []|].
  intros [->|H]; [|apply IH; exact H].
  eapply Rle_trans; [apply (Rmax_r a x)|apply fold_Rmax_ge_init].
Qed.

Lemma fold_Rmax_In (s : list R) (a : R) :
  fold_left Rmax s a = a \/ In (fold_left Rmax s a) s.
Proof.
  revert a; induction s as [|y s IH]; intros a; simpl; [auto|].
  destruct (IH (Rmax a y)) as [H|H]; [|auto].
  rewrite H; unfold Rmax; destruct (Rle_dec a y); auto.
Qed.

Lemma series_max_ge (s : list R) (x : R) : In x s -> x <= series_max s.
Proof.
  destruct s as [|a s]; simpl; [intros []|].
  intros [->|H]; [apply fold_Rmax_ge_init|apply fold_Rmax_ge; exact H].
Qed.

Lemma series_max_In (s : list R) : s <> [] -> In (series_max s) s.
Proof.
  destruct s as [|a s]; [congruence|intros _; simpl].
  destruct (fold_Rmax_In s a); auto.
Qed.

Lemma log1p_0 : log1p 0 = 0.
Proof. unfold log1p; rewrite Rplus_0_r; apply ln_1. Qed.

Lemma log1p_lt (x y : R) : 0 <= x -> x < y -> log1p x < log1p y.
Proof. intros Hx Hxy; unfold log1p; apply ln_increasing; lra. Qed.

Lemma log1p_le (x y : R) : 0 <= x -> x <= y -> log1p x <= log1p y.
Proof.
  intros Hx [H| ->]; [left; apply log1p_lt; assumption|right; reflexivity].
Qed.

Lemma log1p_pos (x : R) : 0 < x -> 0 < log1p x.
Proof. intros H; rewrite <- log1p_0; apply log1p_lt; lra. Qed.

Lemma rint_floor (x : R) :
  (Zfloor x <= rint x <= Zfloor x + 1)%Z.
Proof.
  unfold rint.
  destruct (Rlt_dec _ _); [lia|].
  destruct (Rlt_dec _ _); [lia|].
  destruct (Z.even _); lia.
Qed.

Lemma rint_near (x : R) : - (1 / 2) <= IZR (rint x) - x <= 1 / 2.
Proof.
  pose proof (Zfloor_bound x) as B.
  unfold rint.
  destruct (Rlt_dec _ _) as [H1|H1]; [lra|].
  destruct (Rlt_dec _ _) as [H2|H2]; [rewrite plus_IZR; lra|].
  destruct (Z.even _); [|rewrite plus_IZR]; lra.
Qed.

Lemma rint_IZR (n : Z) : rint (IZR n) = n.
Proof.
  unfold rint; rewrite ZfloorZ.
  destruct (Rlt_dec _ _) as [H|H]; [reflexivity|exfalso; apply H; lra].
Qed.

Lemma rint_mono (x y : R) : x <= y -> (rint x <= rint y)%Z.
Proof.
  intros Hxy.
  pose proof (Zfloor_le x y Hxy) as Hf.
  pose proof (rint_floor x) as Bx.
  pose proof (rint_floor y) as By.
  destruct (Z.eq_dec (Zfloor x) (Zfloor y)) as [E|E]; [|lia].
  clear Bx By Hf; unfold rint; rewrite <- E.
  destruct (Rlt_dec (x - _) _) as [X1|X1];
    destruct (Rlt_dec (y - _) _) as [Y1|Y1]; try lia; try lra.
  - destruct (Rlt_dec _ _); [lia|destruct (Z.even _); lia].
  - destruct (Rlt_dec _ (x - _)) as [X2|X2];
      destruct (Rlt_dec _ (y - _)) as [Y2|Y2]; try lia; try lra;
      destruct (Z.even _); lia.
Qed.

Lemma round2_mono (x y : R) : x <= y -> round2 x <= round2 y.
Proof.
  intros H; unfold round2.
  apply Rmult_le_compat_r; [lra|].
  apply IZR_le, rint_mono; lra.
Qed.

Lemma round2_hundredths (k : Z) : round2 (IZR k / 100) = IZR k / 100.
Proof.
  unfold round2.
  replace (IZR k / 100 * 100) with (IZR k) by lra.
  rewrite rint_IZR; reflexivity.
Qed.

Lemma round2_0 : round2 0 = 0.
Proof.
  replace 0 with (IZR 0 / 100) at 1 by lra.
  rewrite round2_hundredths; lra.
Qed.

Lemma round2_1 : round2 1 = 1.
Proof.
  replace 1 with (IZR 100 / 100) at 1 by lra.
  rewrite round2_hundredths; lra.
Qed.

Lemma round2_near (x : R) : Rabs (round2 x - x) <= 5 / 1000.
Proof.
  pose proof (rint_near (x * 100)) as H.
  apply Rabs_le; unfold round2; lra.
Qed.

End RealColumn.

(** ** The aggregate table *)

Lemma combine_map_snd {A B C : Type} (f : B -> C) (l : list (A * B)) :
  combine l (map f (map snd l)) = map (fun x => (x, f (snd x))) l.
Proof. induction l as [|x l IH]; simpl; [reflexivity|rewrite IH; reflexivity]. Qed.

Lemma risk_score_column_map (counts : list Z) :
  risk_score_column counts = map (score_among counts) counts.
Proof. unfold risk_score_column; rewrite !map_map; reflexivity. Qed.

Section CountyCounts.

Context {P : Type} (gdf_joined : list (joined P)).

Local Abbreviation groups := (count_rows joined_col county_by gdf_joined).
Local Abbreviation rows := (agg_rows (county_counts gdf_joined)).

Lemma agg_rows_map :
  rows = map (fun kn => mk_agg (fst kn) (snd kn)
                          (score_among (map snd groups) (snd kn)))
             groups.
Proof.
  unfold county_counts, groupby_size; cbn [agg_rows body].
  rewrite risk_score_column_map, combine_map_snd, map_map; reflexivity.
Qed.

Lemma agg_rows_counts : map occurrence_count rows = map snd groups.
Proof. rewrite agg_rows_map, map_map; reflexivity. Qed.

Lemma agg_rows_In (r : agg_row) :
  In r rows <->
  In (group r, occurrence_count r) groups
  /\ Risk_Score r = score_among (map occurrence_count rows) (occurrence_count r).
Proof.
  rewrite agg_rows_counts, agg_rows_map, in_map_iff; split.
  - intros [[k n] [<- H]]; simpl; auto.
  - intros [H E]; exists (group r, occurrence_count r); split; [|exact H].
    destruct r; simpl in *; rewrite E; reflexivity.
Qed.

Lemma agg_count_positive (r : agg_row) : In r rows -> 1 <= occurrence_count r.
Proof.
  intros H; apply agg_rows_In in H; destruct H as [H _].
  eapply count_rows_positive; exact H.
Qed.

End CountyCounts.

Section RiskScore.

Context {P : Type} (gdf_joined : list (joined P)).

Local Abbreviation groups := (count_rows joined_col county_by gdf_joined).
Local Abbreviation rows := (agg_rows (county_counts gdf_joined)).
Local Abbreviation applied :=
  (map (fun c => log1p (IZR c)) (map occurrence_count rows)).

Lemma applied_In (r : agg_row) :
  In r rows -> In (log1p (IZR (occurrence_count r))) applied.
Proof.
  intros H; rewrite map_map.
  apply (in_map (fun r => log1p (IZR (occurrence_count r)))); exact H.
Qed.

Lemma applied_positive (x : R) : In x applied -> (0 < x)%R.
Proof.
  rewrite map_map, in_map_iff; intros [r [<- H]].
  apply log1p_pos, IZR_lt, Z.lt_le_trans with 1; [lia|].
  apply agg_count_positive with (1 := H).
Qed.

Lemma top_is_max : rows <> [] -> is_max (series_max applied) applied.
Proof.
  intros H; split; [|intros x; apply series_max_ge].
  apply series_max_In; destruct rows; [congruence|discriminate].
Qed.

Lemma top_positive (r : agg_row) : In r rows -> (0 < series_max applied)%R.
Proof.
  intros H; eapply Rlt_le_trans;
    [|apply series_max_ge, applied_In; exact H].
  apply applied_positive, applied_In; exact H.
Qed.

Lemma risk_score_of_row (r : agg_row) :
  In r rows ->
  Risk_Score r
  = round2 (log1p (IZR (occurrence_count r)) / series_max applied).
Proof. intros H; apply agg_rows_In in H; apply H. Qed.

Lemma risk_score_monotone (a b : agg_row) :
  In a rows -> In b rows ->
  occurrence_count b <= occurrence_count a ->
  (Risk_Score b <= Risk_Score a)%R.
Proof.
  intros Ha Hb Hc.
  rewrite (risk_score_of_row a Ha), (risk_score_of_row b Hb).
  apply round2_mono, Rmult_le_compat_r.
  - left; apply Rinv_0_lt_compat, (top_positive a Ha).
  - apply log1p_le; [|apply IZR_le; exact Hc].
    apply IZR_le; pose proof (agg_count_positive _ _ Hb); lia.
Qed.

Lemma risk_score_unit_interval (r : agg_row) :
  In r rows -> (0 <= Risk_Score r <= 1)%R.
Proof.
  intros H; rewrite (risk_score_of_row r H).
  pose proof (top_positive r H) as Htop.
  pose proof (applied_positive _ (applied_In r H)) as Hpos.
  pose proof (series_max_ge _ _ (applied_In r H)) as Hle.
  split.
  - rewrite <- round2_0; apply round2_mono.
    apply Rmult_le_pos; [lra|left; apply Rinv_0_lt_compat; exact Htop].
  - rewrite <- round2_1; apply round2_mono.
    apply Rmult_le_reg_r with (series_max applied); [exact Htop|].
    unfold Rdiv; rewrite Rmult_assoc, Rinv_l; lra.
Qed.

Lemma risk_score_top_row :
  rows <> [] -> exists r, In r rows /\ Risk_Score r = 1%R.
Proof.
  intros H; destruct (top_is_max H) as [Hin _].
  apply in_map_iff in Hin; destruct Hin as [c [E Hc]].
  apply in_map_iff in Hc; destruct Hc as [r [<- Hr]].
  exists r; split; [exact Hr|].
  rewrite (risk_score_of_row r Hr), E.
  pose proof (top_positive r Hr) as Htop.
  unfold Rdiv; rewrite Rinv_r; [apply round2_1|lra].
Qed.

End RiskScore.

(** ** Claims on the aggregate table *)

Lemma row_key_county {P : Type} (j : joined P) :
  row_key joined_col county_by j
  = match NAME_2 j with
    | Some c => Some [VStr c; VStr (queried_scientificName (occurrence j))]
    | None => None
    end.
Proof. unfold county_by, joined_col; simpl; destruct (NAME_2 j); reflexivity. Qed.

Lemma keyed_has_county {P : Type} (j : joined P) :
  keyed joined_col county_by j = has_county j.
Proof.
  unfold keyed, has_county; rewrite row_key_county.
  destruct (NAME_2 j); reflexivity.
Qed.

Lemma sum_counts_total {P : Type} (gdf_joined : list (joined P)) :
  sum_counts (agg_rows (county_counts gdf_joined))
  = Z.of_nat (List.length (filter has_county gdf_joined)).
Proof.
  unfold sum_counts; rewrite agg_rows_counts.
  transitivity
    (Z.of_nat (List.length (filter (keyed joined_col county_by) gdf_joined)));
    [apply (count_rows_total joined_col county_by)|].
  f_equal; f_equal; apply filter_ext; intros j; apply keyed_has_county.
Qed.

Lemma filter_length_le {A : Type} (f : A -> bool) (l : list A) :
  (List.length (filter f l) <= List.length l)%nat.
Proof. induction l; simpl; [lia|destruct (f a); simpl; lia]. Qed.

Lemma agg_count_le_length {P : Type} (gdf_joined : list (joined P)) (r : agg_row) :
  In r (agg_rows (county_counts gdf_joined)) ->
  occurrence_count r <= Z.of_nat (List.length gdf_joined).
Proof.
  intros H; apply agg_rows_In in H; destruct H as [H _].
  apply (count_rows_In joined_col county_by) in H; destruct H as [-> _].
  apply Nat2Z.inj_le, filter_length_le.
Qed.

Lemma filter_length_all {A : Type} (f : A -> bool) (l : list A) :
  List.length (filter f l) = List.length l
  <-> forall x, In x l -> f x = true.
Proof.
  induction l as [|a l IH]; simpl; [split; [intros _ x []|reflexivity]|].
  pose proof (filter_length_le f l) as Hle.
  destruct (f a) eqn:E; simpl; split.
  - intros H x [<-|Hx]; [exact E|apply IH; [lia|exact Hx]].
  - intros H; f_equal; apply IH; auto.
  - intros H; lia.
  - intros H; rewrite (H a (or_introl eq_refl)) in E; discriminate.
Qed.

Lemma agg_rows_nonempty {P : Type} (gdf_joined : list (joined P)) :
  (exists j, In j gdf_joined /\ NAME_2 j <> None) ->
  agg_rows (county_counts gdf_joined) <> [].
Proof.
  intros [j [Hj Hc]] E.
  pose proof (sum_counts_total gdf_joined) as S; rewrite E in S.
  assert (Hin : In j (filter has_county gdf_joined)).
  { apply filter_In; split; [exact Hj|].
    unfold has_county; destruct (NAME_2 j); [reflexivity|congruence]. }
  destruct (filter has_county gdf_joined); [destruct Hin|discriminate].
Qed.

Lemma ex_rows : agg_rows (county_counts ex_joined) = [ex_howard; ex_kent].
Proof. rewrite agg_rows_map; reflexivity. Qed.

(** C1.  Each aggregate row of a non-empty joined set counts the joined rows
    of its (county, species) group and carries the score the specification
    describes: ln(1 + c) over the largest ln(1 + c') of the run's groups,
    rounded to two decimal places. *)
Theorem risk_score_formula {P : Type} (gdf_joined : list (joined P))
    (r : agg_row) :
  gdf_joined <> [] ->
  In r (agg_rows (county_counts gdf_joined)) ->
  occurrence_count r
  = Z.of_nat (List.length
                (filter (has_key joined_col county_by (group r)) gdf_joined))
  /\ spec_risk_score
       (map occurrence_count (agg_rows (county_counts gdf_joined)))
       (occurrence_count r) (Risk_Score r).
Proof.
  intros _ H; split.
  { apply agg_rows_In in H; destruct H as [H _].
    apply (count_rows_In joined_col county_by) in H; apply H. }
  exists (series_max
            (map (fun c => log1p (IZR c))
                 (map occurrence_count (agg_rows (county_counts gdf_joined))))).
  split.
  - apply top_is_max; intros E; rewrite E in H; exact H.
  - rewrite (risk_score_of_row _ r H); fold (log1p (IZR (occurrence_count r))).
    split with (rint (log1p (IZR (occurrence_count r))
                      / series_max
                          (map (fun c => log1p (IZR c))
                               (map occurrence_count
                                    (agg_rows (county_counts gdf_joined))))
                      * 100)).
    split; [reflexivity|apply round2_near].
Qed.

Lemma risk_score_formula_witness :
  occurrence_count ex_howard
  = Z.of_nat (List.length
                (filter (has_key joined_col county_by (group ex_howard))
                        ex_joined))
  /\ spec_risk_score
       (map occurrence_count (agg_rows (county_counts ex_joined)))
       (occurrence_count ex_howard) (Risk_Score ex_howard).
Proof.
  apply (risk_score_formula ex_joined ex_howard).
  - discriminate.
  - rewrite ex_rows; simpl; auto.
Defined.

(** C2, as the code has it.  Every score lies between 0.0 and 1.0, and
    some row scores exactly 1.0 as soon as one joined row carries a county
    (rows with a missing county enter no group). *)
Theorem risk_score_bounds {P : Type} (gdf_joined : list (joined P)) :
  (forall r, In r (agg_rows (county_counts gdf_joined)) ->
             (0 <= Risk_Score r <= 1)%R)
  /\ ((exists j, In j gdf_joined /\ NAME_2 j <> None) ->
      exists r, In r (agg_rows (county_counts gdf_joined))
                /\ Risk_Score r = 1%R).
Proof.
  split.
  - apply risk_score_unit_interval.
  - intros H; apply risk_score_top_row, agg_rows_nonempty; exact H.
Qed.

Lemma risk_score_bounds_witness :
  exists r, In r (agg_rows (county_counts ex_partly_assigned))
            /\ Risk_Score r = 1%R.
Proof.
  apply (proj2 (risk_score_bounds ex_partly_assigned)).
  exists (ex_row (Some "Howard") 2021 6); split; [simpl; auto|discriminate].
Defined.

(** C2 as stated fails: a joined set that is not empty but whose rows have
    no county has no aggregate row, hence none that scores 1.0. *)
Lemma risk_score_bounds_fails_unassigned :
  ex_unassigned <> []
  /\ ~ (exists r, In r (agg_rows (county_counts ex_unassigned))
                  /\ Risk_Score r = 1%R).
Proof.
  split; [discriminate|].
  intros [r [H _]]; exact H.
Qed.

(** C3, as the code has it.  The occurrence counts of the aggregate rows add
    up to the number of joined rows whose county is not missing; they add up
    to the size of the joined set exactly when no row misses its county. *)
Theorem count_conservation {P : Type} (gdf_joined : list (joined P)) :
  sum_counts (agg_rows (county_counts gdf_joined))
  = Z.of_nat (List.length (filter has_county gdf_joined))
  /\ (sum_counts (agg_rows (county_counts gdf_joined))
      = Z.of_nat (List.length gdf_joined)
      <-> forall j, In j gdf_joined -> NAME_2 j <> None).
Proof.
  split; [apply sum_counts_total|].
  rewrite sum_counts_total, Nat2Z.inj_iff, filter_length_all.
  split; intros H j Hj; specialize (H j Hj); unfold has_county in *;
    destruct (NAME_2 j); congruence.
Qed.

Lemma count_conservation_witness :
  sum_counts (agg_rows (county_counts ex_joined))
  = Z.of_nat (List.length ex_joined).
Proof.
  apply (proj2 (proj2 (count_conservation ex_joined))).
  intros j H; simpl in H.
  destruct H as [<-|[<-|[<-|[<-|[]]]]]; discriminate.
Defined.

(** C3 as stated fails: of two joined rows, one without a county, only one
    is counted. *)
Lemma count_conservation_fails_unassigned :
  sum_counts (agg_rows (county_counts ex_partly_assigned))
  <> Z.of_nat (List.length ex_partly_assigned).
Proof.
  rewrite sum_counts_total; vm_compute; discriminate.
Qed.

(** C4.  A row with strictly more occurrences than another row of the same
    run has a rounded score that is at least the other's. *)
Theorem risk_score_order {P : Type} (gdf_joined : list (joined P))
    (a b : agg_row) :
  In a (agg_rows (county_counts gdf_joined)) ->
  In b (agg_rows (county_counts gdf_joined)) ->
  occurrence_count b < occurrence_count a ->
  (Risk_Score b <= Risk_Score a)%R.
Proof.
  intros Ha Hb Hc; apply (risk_score_monotone gdf_joined a b Ha Hb); lia.
Qed.

Lemma risk_score_order_witness : (Risk_Score ex_kent <= Risk_Score ex_howard)%R.
Proof.
  apply (risk_score_order ex_joined ex_howard ex_kent).
  - rewrite ex_rows; simpl; auto.
  - rewrite ex_rows; simpl; auto.
  - simpl; lia.
Defined.

Lemma log1p_int64 (n : Z) :
  0 <= n <= int64_max -> (log1p (IZR n) <= 63 * ln 2)%R.
Proof.
  intros H; unfold log1p, int64_max in *.
  replace (63 * ln 2)%R with (ln (2 ^ 63)%R)
    by (rewrite ln_pow by lra; simpl INR; lra).
  rewrite <- plus_IZR.
  replace (2 ^ 63)%R with (IZR (2 ^ 63)) by (rewrite pow_IZR; reflexivity).
  assert (E : 1 + n < 2 ^ 63 \/ 1 + n = 2 ^ 63) by lia.
  destruct E as [E|E]; [|rewrite E; lra].
  left; apply ln_increasing; [apply IZR_lt; lia|apply IZR_lt; exact E].
Qed.

Lemma ln_2_pos : (0 < ln 2)%R.
Proof. rewrite <- ln_1; apply ln_increasing; lra. Qed.

Lemma log1p_ge_ln2 (n : Z) : 1 <= n -> (ln 2 <= log1p (IZR n))%R.
Proof.
  intros H; replace (ln 2) with (log1p 1) by (unfold log1p; f_equal; lra).
  apply log1p_le; [lra|apply IZR_le; exact H].
Qed.

Lemma round2_positive (x : R) : (1 / 100 <= x)%R -> (0 < round2 x)%R.
Proof.
  intros H; unfold round2.
  pose proof (rint_near (x * 100)) as N.
  apply Rmult_lt_0_compat; [lra|lra].
Qed.

(** C10.  Every row of the raw aggregate table counts at least one
    occurrence and has a score above zero. *)
Theorem raw_rows_observed {P : Type} (gdf_joined : list (joined P))
    (r : agg_row) :
  Z.of_nat (List.length gdf_joined) <= int64_max ->
  In r (agg_rows (county_counts gdf_joined)) ->
  1 <= occurrence_count r /\ (0 < Risk_Score r)%R.
Proof.
  intros Hlen H; split; [apply agg_count_positive with (1 := H)|].
  rewrite (risk_score_of_row _ r H).
  pose proof (log1p_ge_ln2 _ (agg_count_positive _ _ H)) as Hlow.
  pose proof ln_2_pos as H2.
  assert (Hne : agg_rows (county_counts gdf_joined) <> [])
    by (intros E; rewrite E in H; exact H).
  destruct (top_is_max gdf_joined Hne) as [Hin _].
  pose proof (top_positive gdf_joined r H) as Htop.
  apply in_map_iff in Hin; destruct Hin as [c [E Hc]].
  apply in_map_iff in Hc; destruct Hc as [m [<- Hm]].
  assert (Hhigh : (log1p (IZR (occurrence_count m)) <= 63 * ln 2)%R).
  { apply log1p_int64; split.
    - pose proof (agg_count_positive _ _ Hm); lia.
    - pose proof (agg_count_le_length _ _ Hm); lia. }
  rewrite E in Hhigh.
  apply round2_positive.
  apply Rmult_le_reg_r with (series_max
    (map (fun c => log1p (IZR c))
         (map occurrence_count (agg_rows (county_counts gdf_joined)))));
    [exact Htop|].
  unfold Rdiv at 2; rewrite Rmult_assoc, Rinv_l by lra.
  lra.
Qed.

Lemma raw_rows_observed_witness :
  1 <= occurrence_count ex_kent /\ (0 < Risk_Score ex_kent)%R.
Proof.
  apply (raw_rows_observed ex_joined ex_kent).
  - vm_compute; discriminate.
  - rewrite ex_rows; simpl; auto.
Defined.

(** ** The hotspot map table *)

Lemma agg_county_observed {P : Type} (gdf_joined : list (joined P))
    (c : string) (r : agg_row) :
  In r (agg_rows (county_counts gdf_joined)) ->
  agg_county (county_counts gdf_joined) c r = true ->
  exists j, In j gdf_joined /\ NAME_2 j = Some c.
Proof.
  intros H Hc; apply agg_rows_In in H; destruct H as [H _].
  apply (count_rows_observed joined_col county_by) in H.
  destruct H as [j [Hj Hk]]; exists j; split; [exact Hj|].
  rewrite row_key_county in Hk.
  destruct (NAME_2 j) as [c'|]; [|discriminate].
  injection Hk as Hk; unfold agg_county, agg_str in Hc; rewrite <- Hk in Hc.
  simpl in Hc; apply String.eqb_eq in Hc; congruence.
Qed.

Lemma no_rows_of_county {P : Type} (gdf_joined : list (joined P)) (c : string) :
  (forall j, In j gdf_joined -> NAME_2 j <> Some c) ->
  filter (agg_county (county_counts gdf_joined) c)
         (agg_rows (county_counts gdf_joined)) = [].
Proof.
  intros H.
  destruct (filter _ _) as [|r l] eqn:E; [reflexivity|exfalso].
  assert (Hr : In r (r :: l)) by (left; reflexivity).
  rewrite <- E in Hr; apply filter_In in Hr; destruct Hr as [Hr Hc].
  destruct (agg_county_observed _ _ _ Hr Hc) as [j [Hj Hn]].
  exact (H j Hj Hn).
Qed.

(** C5.  A county of the reference list with no occurrence in the joined set
    is kept by the merge, and its rows carry occurrence_count 0 and
    risk score 0.0. *)
Theorem merged_fills_missing {G P : Type} (county_geo : list (county_feature G))
    (gdf_joined : list (joined P)) (g : county_feature G) :
  In g county_geo ->
  (forall j, In j gdf_joined -> NAME_2 j <> Some (g_NAME_2 g)) ->
  (exists m, In m (merged county_geo gdf_joined)
             /\ m_NAME_2 m = g_NAME_2 g /\ m_geometry m = geometry g)
  /\ forall m, In m (merged county_geo gdf_joined) ->
               m_NAME_2 m = g_NAME_2 g ->
               m_occurrence_count m = 0 /\ m_Risk_Score m = 0%R.
Proof.
  intros Hg Hno; unfold merged, fillna_scores, merge_left; split.
  - exists (mk_merged (g_NAME_2 g) (geometry g) None 0 0%R).
    split; [|split; reflexivity].
    apply in_map_iff.
    exists (mk_left (g_NAME_2 g) (geometry g) None None None).
    split; [reflexivity|].
    apply in_flat_map; exists g; split; [exact Hg|].
    rewrite (no_rows_of_county _ _ Hno); left; reflexivity.
  - intros m Hm Hname.
    apply in_map_iff in Hm; destruct Hm as [l [<- Hl]].
    cbn [m_NAME_2 m_occurrence_count m_Risk_Score] in *.
    apply in_flat_map in Hl; destruct Hl as [g' [_ Hl]].
    assert (E : g_NAME_2 g' = l_NAME_2 l).
    { destruct (filter _ _); [destruct Hl as [<-|[]]; reflexivity|].
      apply in_map_iff in Hl; destruct Hl as [r [<- _]]; reflexivity. }
    rewrite E, Hname, (no_rows_of_county _ _ Hno) in Hl.
    destruct Hl as [<-|[]]; auto.
Qed.

Lemma merged_fills_missing_witness :
  (exists m, In m (merged ex_geo ex_joined)
             /\ m_NAME_2 m = "Garrett" /\ m_geometry m = 2%nat)
  /\ forall m, In m (merged ex_geo ex_joined) ->
               m_NAME_2 m = "Garrett" ->
               m_occurrence_count m = 0 /\ m_Risk_Score m = 0%R.
Proof.
  apply (merged_fills_missing ex_geo ex_joined (mk_feature "Garrett" 2%nat)).
  - simpl; auto.
  - intros j H; simpl in H.
    destruct H as [<-|[<-|[<-|[<-|[]]]]]; discriminate.
Defined.

(** ** Monthly and annual buckets *)

Lemma isin_In {P : Type} (county_selection : list string) (j : joined P) :
  isin county_selection j = true ->
  exists c, NAME_2 j = Some c /\ In c county_selection.
Proof.
  unfold isin; destruct (NAME_2 j) as [c|]; [|discriminate].
  intros H; apply existsb_exists in H; destruct H as [c' [Hin E]].
  apply String.eqb_eq in E; subst c'; eauto.
Qed.

Lemma comparing_two (county_selection : list string) :
  List.length county_selection = 2%nat -> comparing true county_selection = true.
Proof. intros H; unfold comparing; rewrite H; reflexivity. Qed.

Lemma comparing_fewer (compare_counties : bool) (county_selection : list string) :
  (List.length county_selection < 2)%nat ->
  comparing compare_counties county_selection = false.
Proof.
  intros H; unfold comparing.
  destruct (Nat.eqb_spec (List.length county_selection) 2); [lia|].
  apply andb_false_r.
Qed.

Lemma monthly_comparison_county {P : Type} (j : joined P) (k : key) :
  row_key joined_col ["year_month"; "queried_scientificName"; "NAME_2"] j
  = Some k ->
  exists c, NAME_2 j = Some c
            /\ key_col ["year_month"; "queried_scientificName"; "NAME_2"; "count"]
                       "NAME_2" k = Some (VStr c).
Proof.
  unfold joined_col, occ_col; simpl.
  destruct (year_month (occurrence j)); simpl; [|discriminate].
  destruct (NAME_2 j) as [c|]; simpl; [|discriminate].
  intros [= <-]; exists c; split; reflexivity.
Qed.

Lemma annual_comparison_county {P : Type} (j : joined P) (k : key) :
  row_key joined_col ["year"; "NAME_2"] j = Some k ->
  exists c, NAME_2 j = Some c
            /\ key_col ["year"; "NAME_2"; "count"] "NAME_2" k = Some (VStr c).
Proof.
  unfold joined_col, occ_col; simpl.
  destruct (NAME_2 j) as [c|]; simpl; [|discriminate].
  intros [= <-]; exists c; split; reflexivity.
Qed.

(** C6.  With two counties selected in comparison mode the monthly and the
    annual tables hold only rows of those two counties; with fewer than two
    selected both tables have no county column and count, per key, all the
    occurrences of the run. *)
Theorem comparison_mode_restriction {P : Type} (county_selection : list string)
    (df_occ : list (occ P)) (gdf_joined : list (joined P)) :
  (List.length county_selection = 2%nat ->
   let monthly := monthly_counts true county_selection df_occ gdf_joined in
   let annual := annual_counts true county_selection df_occ gdf_joined in
   (forall k n, In (k, n) (body monthly) ->
      exists c, key_col (columns monthly) "NAME_2" k = Some (VStr c)
                /\ In c county_selection)
   /\ (forall k n, In (k, n) (body annual) ->
      exists c, key_col (columns annual) "NAME_2" k = Some (VStr c)
                /\ In c county_selection))
  /\ ((List.length county_selection < 2)%nat ->
      forall compare_counties : bool,
      let monthly :=
        monthly_counts compare_counties county_selection df_occ gdf_joined in
      let annual :=
        annual_counts compare_counties county_selection df_occ gdf_joined in
      columns monthly = ["year_month"; "queried_scientificName"; "count"]
      /\ columns annual = ["year"; "queried_scientificName"; "count"]
      /\ (forall k n, In (k, n) (body monthly) <->
            n = Z.of_nat (List.length (filter (has_key occ_col monthly_by k) df_occ))
            /\ 1 <= n)
      /\ (forall k n, In (k, n) (body annual) <->
            n = Z.of_nat (List.length (filter (has_key occ_col annual_by k) df_occ))
            /\ 1 <= n)).
Proof.
  split.
  - intros Hlen; unfold monthly_counts, annual_counts.
    rewrite (comparing_two _ Hlen); cbn [body columns groupby_size]; split.
    + intros k n H; apply count_rows_observed in H.
      destruct H as [j [Hj Hk]]; apply filter_In in Hj.
      destruct (monthly_comparison_county j k Hk) as [c [Hc Hcol]].
      destruct (isin_In _ _ (proj2 Hj)) as [c' [Hc' Hin]].
      exists c; split; [exact Hcol|congruence].
    + intros k n H; apply count_rows_observed in H.
      destruct H as [j [Hj Hk]]; apply filter_In in Hj.
      destruct (annual_comparison_county j k Hk) as [c [Hc Hcol]].
      destruct (isin_In _ _ (proj2 Hj)) as [c' [Hc' Hin]].
      exists c; split; [exact Hcol|congruence].
  - intros Hlen cmp; unfold monthly_counts, annual_counts.
    rewrite (comparing_fewer cmp _ Hlen); cbn [body columns groupby_size].
    split; [reflexivity|split; [reflexivity|split]].
    + intros k n; apply (count_rows_In occ_col monthly_by).
    + intros k n; apply (count_rows_In occ_col annual_by).
Qed.

Lemma comparison_mode_restriction_witness :
  (forall k n,
      In (k, n) (body (monthly_counts true ["Howard"; "Kent"] ex_df_occ ex_joined)) ->
      exists c,
        key_col (columns (monthly_counts true ["Howard"; "Kent"] ex_df_occ ex_joined))
                "NAME_2" k = Some (VStr c)
        /\ In c ["Howard"; "Kent"])
  /\ columns (annual_counts true ["Howard"] ex_df_occ ex_joined)
     = ["year"; "queried_scientificName"; "count"].
Proof.
  split.
  - apply (proj1 (comparison_mode_restriction ["Howard"; "Kent"] ex_df_occ ex_joined)).
    reflexivity.
  - apply (proj2 (comparison_mode_restriction ["Howard"] ex_df_occ ex_joined)).
    simpl; lia.
Defined.

(** C7.  In comparison mode the annual table is keyed by year and county
    only: the species, which the monthly table of the same mode keeps in its
    key, is not a column of it. *)
Theorem annual_comparison_drops_species :
  annual_counts true ["Howard"; "Kent"] ex_df_occ ex_joined
  = {| columns := ["year"; "NAME_2"; "count"];
       body := [([VInt 2021; VStr "Howard"], 1); ([VInt 2021; VStr "Kent"], 1);
                ([VInt 2022; VStr "Howard"], 2)] |}
  /\ columns (monthly_counts true ["Howard"; "Kent"] ex_df_occ ex_joined)
     = ["year_month"; "queried_scientificName"; "NAME_2"; "count"].
Proof. split; reflexivity. Qed.

(** ** The handler *)

Section Runs.

Variables G P : Type.
Variable get_taxon_key : string -> string + Z.
Variable fetch_occurrences_for_taxon :
  Z -> string -> string -> Z -> Z -> string + list (fetched P).
Variable assign_to_counties : list (occ P) -> list (joined P).
Variable to_datetime : Z -> Z -> option (Z * Z).
Variable county_geo : list (county_feature G).

Local Abbreviation run_here :=
  (run_analysis G P get_taxon_key fetch_occurrences_for_taxon
     assign_to_counties to_datetime county_geo).
Local Abbreviation fetch_here :=
  (fetch P get_taxon_key fetch_occurrences_for_taxon).

Lemma sidebar_session (c : controls) (s : session P) :
  ss_gdf_joined (snd (sidebar P c s)) = ss_gdf_joined s.
Proof.
  unfold sidebar; destruct (compare_counties c); [|reflexivity].
  destruct (ss_gdf_joined s) eqn:E; simpl; auto.
Qed.

Lemma run_fetch_raises (c : controls) (s : session P) (e : string) :
  fetch_here c = inl e ->
  run_here c s
  = Stopped
      [St_info "Fetching live GBIF data…";
       St_error ("Failed to fetch " ++ selected_species c ++ ": " ++ e)]
      (snd (sidebar P c s)).
Proof.
  intros H; unfold run_analysis; destruct (sidebar P c s) as [sel s'].
  rewrite H; reflexivity.
Qed.

Lemma run_fetch_empty (c : controls) (s : session P) :
  fetch_here c = inr [] ->
  run_here c s
  = Stopped
      [St_info "Fetching live GBIF data…";
       St_warning "No records retrieved. Try adjusting filters."]
      (snd (sidebar P c s)).
Proof.
  intros H; unfold run_analysis; destruct (sidebar P c s) as [sel s'].
  rewrite H; reflexivity.
Qed.

Lemma run_county_counts (c : controls) (s : session P) :
  option_map t_county_counts (results (run_here c s))
  = match fetch_here c with
    | inl _ | inr [] => None
    | inr rows =>
        Some (county_counts
                (assign_to_counties (clean_dates to_datetime (selected_species c) rows)))
    end.
Proof.
  unfold run_analysis; destruct (sidebar P c s) as [sel s'].
  destruct (fetch_here c) as [e|[|r rows]]; reflexivity.
Qed.

Lemma fetch_inputs (c1 c2 : controls) :
  selected_species c1 = selected_species c2 ->
  year_range c1 = year_range c2 ->
  fetch_here c1 = fetch_here c2.
Proof. unfold fetch; intros -> ->; reflexivity. Qed.

End Runs.

(** C8.  A fetch that raises stops the run after an error message made of
    the species and the error text; a fetch that returns no record stops it
    after a warning.  Either way nothing else is shown, no table is computed
    and the stored joined dataset is left as it was. *)
Theorem fetch_failure_stops (G P : Type)
    (get_taxon_key : string -> string + Z)
    (fetch_occurrences_for_taxon :
       Z -> string -> string -> Z -> Z -> string + list (fetched P))
    (assign_to_counties : list (occ P) -> list (joined P))
    (to_datetime : Z -> Z -> option (Z * Z))
    (county_geo : list (county_feature G))
    (c : controls) (s : session P) :
  let r := run_analysis G P get_taxon_key fetch_occurrences_for_taxon
             assign_to_counties to_datetime county_geo c s in
  (forall e : string,
      fetch P get_taxon_key fetch_occurrences_for_taxon c = inl e ->
      shown r = [St_info "Fetching live GBIF data…";
                 St_error ("Failed to fetch " ++ selected_species c ++ ": " ++ e)]
      /\ results r = None
      /\ ss_gdf_joined (session_after r) = ss_gdf_joined s)
  /\ (fetch P get_taxon_key fetch_occurrences_for_taxon c = inr [] ->
      shown r = [St_info "Fetching live GBIF data…";
                 St_warning "No records retrieved. Try adjusting filters."]
      /\ results r = None
      /\ ss_gdf_joined (session_after r) = ss_gdf_joined s).
Proof.
  intros r; subst r; split.
  - intros e H; rewrite (run_fetch_raises _ _ _ _ _ _ _ _ _ _ H).
    simpl; rewrite sidebar_session; auto.
  - intros H; rewrite (run_fetch_empty _ _ _ _ _ _ _ _ _ H).
    simpl; rewrite sidebar_session; auto.
Qed.

Lemma fetch_failure_stops_witness :
  (shown (run_analysis nat unit ex_get_taxon_key ex_fetch_down ex_assign ex_to_datetime ex_geo
            ex_controls ex_session)
   = [St_info "Fetching live GBIF data…";
      St_error "Failed to fetch Aedes albopictus: HTTP 503"])
  /\ (shown (run_analysis nat unit ex_get_taxon_key ex_fetch_nothing ex_assign
               ex_to_datetime ex_geo ex_controls ex_session)
      = [St_info "Fetching live GBIF data…";
         St_warning "No records retrieved. Try adjusting filters."]).
Proof.
  split.
  - apply (proj1 (fetch_failure_stops nat unit ex_get_taxon_key ex_fetch_down
                    ex_assign ex_to_datetime ex_geo ex_controls ex_session) "HTTP 503").
    reflexivity.
  - apply (proj2 (fetch_failure_stops nat unit ex_get_taxon_key ex_fetch_nothing
                    ex_assign ex_to_datetime ex_geo ex_controls ex_session)).
    reflexivity.
Defined.

(** C9.  Two runs with the same species and year range over the same
    upstream data compute the same aggregate table, whatever the other
    controls and the session hold. *)
Theorem aggregate_table_reproducible (G P : Type)
    (get_taxon_key : string -> string + Z)
    (fetch_occurrences_for_taxon :
       Z -> string -> string -> Z -> Z -> string + list (fetched P))
    (assign_to_counties : list (occ P) -> list (joined P))
    (to_datetime : Z -> Z -> option (Z * Z))
    (county_geo : list (county_feature G))
    (c1 c2 : controls) (s1 s2 : session P) :
  selected_species c1 = selected_species c2 ->
  year_range c1 = year_range c2 ->
  option_map t_county_counts
    (results (run_analysis G P get_taxon_key fetch_occurrences_for_taxon
                assign_to_counties to_datetime county_geo c1 s1))
  = option_map t_county_counts
      (results (run_analysis G P get_taxon_key fetch_occurrences_for_taxon
                  assign_to_counties to_datetime county_geo c2 s2)).
Proof.
  intros Hs Hy; rewrite !run_county_counts.
  rewrite (fetch_inputs _ _ _ _ _ Hs Hy), Hs; reflexivity.
Qed.

Lemma aggregate_table_reproducible_witness :
  option_map t_county_counts
    (results (run_analysis nat unit ex_get_taxon_key ex_fetch ex_assign ex_to_datetime ex_geo
                ex_controls ex_session))
  = option_map t_county_counts
      (results (run_analysis nat unit ex_get_taxon_key ex_fetch ex_assign ex_to_datetime ex_geo
                  ex_controls_comparing
                  (mk_session (Some ex_joined) ["Howard"; "Kent"]))).
Proof.
  apply (aggregate_table_reproducible nat unit ex_get_taxon_key ex_fetch
           ex_assign ex_to_datetime ex_geo ex_controls ex_controls_comparing);
    reflexivity.
Defined.

(** ** More on the aggregate table *)

Lemma key_sorted_NoDup (t : list (key * Z)) :
  key_sorted t -> NoDup (map fst t).
Proof.
  unfold key_sorted; induction 1 as [|[k n] t Ht IH Hall]; simpl;
    constructor; [|exact IH].
  intros Hin; apply in_map_iff in Hin; destruct Hin as [[k' n'] [E Hin]].
  rewrite Forall_forall in Hall; specialize (Hall _ Hin).
  unfold key_lt in Hall; simpl in *; subst k'.
  rewrite key_compare_refl in Hall; discriminate.
Qed.

Lemma agg_rows_groups {P : Type} (gdf_joined : list (joined P)) :
  map group (agg_rows (county_counts gdf_joined))
  = map fst (count_rows joined_col county_by gdf_joined).
Proof. rewrite agg_rows_map, map_map; reflexivity. Qed.

Lemma has_key_refl {A : Type} (col : string -> A -> option cell)
    (by_ : list string) (k : key) (r : A) :
  row_key col by_ r = Some k -> has_key col by_ k r = true.
Proof.
  intros H; unfold has_key; rewrite H; apply key_eqb_eq; reflexivity.
Qed.

Lemma count_rows_complete {A : Type} (col : string -> A -> option cell)
    (by_ : list string) (df : list A) (r : A) (k : key) :
  In r df -> row_key col by_ r = Some k ->
  exists n, In (k, n) (count_rows col by_ df).
Proof.
  intros Hin Hk.
  exists (Z.of_nat (List.length (filter (has_key col by_ k) df))).
  apply count_rows_In; split; [reflexivity|].
  assert (H : In r (filter (has_key col by_ k) df))
    by (apply filter_In; split; [exact Hin|apply has_key_refl; exact Hk]).
  destruct (filter (has_key col by_ k) df); [destruct H|simpl; lia].
Qed.

(** X1.  The aggregate table has one row per (county, species) group: no
    group occurs twice. *)
Theorem county_counts_groups_distinct {P : Type} (gdf_joined : list (joined P)) :
  NoDup (map group (agg_rows (county_counts gdf_joined))).
Proof.
  rewrite agg_rows_groups; apply key_sorted_NoDup, count_rows_sorted.
Qed.

(** X2.  The groups of the aggregate table are exactly the (county, species)
    pairs of the joined rows that carry a county. *)
Theorem county_counts_groups_observed {P : Type} (gdf_joined : list (joined P))
    (c sp : string) :
  (exists r, In r (agg_rows (county_counts gdf_joined))
             /\ group r = [VStr c; VStr sp])
  <-> (exists j, In j gdf_joined /\ NAME_2 j = Some c
                 /\ queried_scientificName (occurrence j) = sp).
Proof.
  split.
  - intros [r [Hr Hg]]; apply agg_rows_In in Hr; destruct Hr as [Hr _].
    apply (count_rows_observed joined_col county_by) in Hr.
    destruct Hr as [j [Hj Hk]]; exists j; split; [exact Hj|].
    rewrite row_key_county, Hg in Hk.
    destruct (NAME_2 j); [|discriminate].
    injection Hk as -> ->; auto.
  - intros [j [Hj [Hc Hs]]].
    assert (Hk : row_key joined_col county_by j = Some [VStr c; VStr sp])
      by (rewrite row_key_county, Hc, Hs; reflexivity).
    destruct (count_rows_complete _ _ _ _ _ Hj Hk) as [n Hn].
    exists (mk_agg [VStr c; VStr sp] n
              (score_among (map snd (count_rows joined_col county_by gdf_joined)) n)).
    split; [|reflexivity].
    rewrite agg_rows_map; apply in_map_iff.
    exists ([VStr c; VStr sp], n); split; [reflexivity|exact Hn].
Qed.

Lemma ratio_unit_interval {P : Type} (gdf_joined : list (joined P)) (r : agg_row) :
  In r (agg_rows (county_counts gdf_joined)) ->
  (0 <= log1p (IZR (occurrence_count r))
        / series_max
            (map (fun c => log1p (IZR c))
                 (map occurrence_count (agg_rows (county_counts gdf_joined))))
   <= 1)%R.
Proof.
  intros H.
  pose proof (top_positive gdf_joined r H) as Htop.
  pose proof (applied_positive gdf_joined _ (applied_In gdf_joined r H)) as Hpos.
  pose proof (series_max_ge _ _ (applied_In gdf_joined r H)) as Hle.
  split.
  - apply Rmult_le_pos; [lra|left; apply Rinv_0_lt_compat; exact Htop].
  - apply Rmult_le_reg_r with (1 := Htop).
    unfold Rdiv; rewrite Rmult_assoc, Rinv_l; lra.
Qed.

(** X3.  Every row whose count is the largest of the table scores exactly
    1.0, ties included. *)
Theorem top_count_scores_one {P : Type} (gdf_joined : list (joined P))
    (r : agg_row) :
  In r (agg_rows (county_counts gdf_joined)) ->
  (forall r', In r' (agg_rows (county_counts gdf_joined)) ->
              occurrence_count r' <= occurrence_count r) ->
  Risk_Score r = 1%R.
Proof.
  intros Hr Hmax.
  rewrite (risk_score_of_row gdf_joined r Hr).
  assert (Hne : agg_rows (county_counts gdf_joined) <> [])
    by (intros E; rewrite E in Hr; exact Hr).
  destruct (top_is_max gdf_joined Hne) as [Hin Hge].
  pose proof (top_positive gdf_joined r Hr) as Htop.
  apply in_map_iff in Hin; destruct Hin as [c [E Hc]].
  apply in_map_iff in Hc; destruct Hc as [m [<- Hm]].
  assert (Hle : (log1p (IZR (occurrence_count m))
                 <= log1p (IZR (occurrence_count r)))%R).
  { apply log1p_le; [|apply IZR_le, Hmax, Hm].
    apply IZR_le; pose proof (agg_count_positive _ _ Hm); lia. }
  pose proof (Hge _ (applied_In gdf_joined r Hr)) as Hge'.
  rewrite <- E in *.
  replace (log1p (IZR (occurrence_count r)))
    with (log1p (IZR (occurrence_count m))) by lra.
  unfold Rdiv; rewrite Rinv_r; [apply round2_1|lra].
Qed.

Lemma top_count_scores_one_witness : Risk_Score ex_howard = 1%R.
Proof.
  apply (top_count_scores_one ex_joined ex_howard).
  - rewrite ex_rows; simpl; auto.
  - rewrite ex_rows; intros r' [<-|[<-|[]]]; simpl; lia.
Defined.

(** X4.  Every risk score is a whole number of hundredths between 0 and
    100: one of 0.00, 0.01, ..., 1.00. *)
Theorem risk_score_hundredths {P : Type} (gdf_joined : list (joined P))
    (r : agg_row) :
  In r (agg_rows (county_counts gdf_joined)) ->
  exists k : Z, 0 <= k <= 100 /\ Risk_Score r = (IZR k / 100)%R.
Proof.
  intros H; rewrite (risk_score_of_row gdf_joined r H).
  pose proof (ratio_unit_interval gdf_joined r H) as B.
  set (x := (log1p (IZR (occurrence_count r)) / _)%R) in *.
  exists (rint (x * 100)); split; [|reflexivity].
  split.
  - apply Z.le_trans with (rint (IZR 0)); [rewrite rint_IZR; lia|].
    apply rint_mono; lra.
  - apply Z.le_trans with (rint (IZR 100)); [|rewrite rint_IZR; lia].
    apply rint_mono; lra.
Qed.

Lemma risk_score_hundredths_witness :
  exists k : Z, 0 <= k <= 100 /\ Risk_Score ex_kent = (IZR k / 100)%R.
Proof.
  apply (risk_score_hundredths ex_joined ex_kent).
  rewrite ex_rows; simpl; auto.
Defined.

(** ** More on the hotspot map table *)

Lemma agg_county_group {P : Type} (gdf_joined : list (joined P))
    (c : string) (r : agg_row) :
  In r (agg_rows (county_counts gdf_joined)) ->
  (agg_county (county_counts gdf_joined) c r = true
   <-> exists sp, group r = [VStr c; VStr sp]).
Proof.
  intros H; apply agg_rows_In in H; destruct H as [H _].
  apply (count_rows_observed joined_col county_by) in H.
  destruct H as [j [_ Hk]]; rewrite row_key_county in Hk.
  destruct (NAME_2 j) as [c'|]; [|discriminate].
  injection Hk as Hk; unfold agg_county, agg_str; rewrite <- Hk; simpl.
  rewrite String.eqb_eq; split.
  - intros ->; eauto.
  - intros [sp [= ->]]; reflexivity.
Qed.

Lemma agg_str_species {P : Type} (gdf_joined : list (joined P))
    (c sp : string) (r : agg_row) :
  group r = [VStr c; VStr sp] ->
  agg_str (county_counts gdf_joined) "queried_scientificName" r = Some sp.
Proof. intros H; unfold agg_str; rewrite H; reflexivity. Qed.

Lemma filter_at_most_one {A B : Type} (f : A -> B) (p : A -> bool) (k : B)
    (l : list A) :
  NoDup (map f l) -> (forall x, In x l -> p x = true -> f x = k) ->
  (List.length (filter p l) <= 1)%nat.
Proof.
  induction l as [|a l IH]; simpl; [lia|].
  intros Hnd Hk; inversion Hnd as [|? ? Hnotin Hnd']; subst.
  specialize (IH Hnd' (fun x Hx => Hk x (or_intror Hx))).
  destruct (p a) eqn:Ea; [|exact IH]; simpl.
  destruct (filter p l) as [|b l'] eqn:El; [simpl; lia|exfalso].
  assert (Hb : In b (filter p l)) by (rewrite El; left; reflexivity).
  apply filter_In in Hb; destruct Hb as [Hb Hpb].
  apply Hnotin; rewrite (Hk a (or_introl eq_refl) Ea).
  rewrite <- (Hk b (or_intror Hb) Hpb); apply in_map; exact Hb.
Qed.

Lemma one_row_per_county {P : Type} (gdf_joined : list (joined P))
    (sp c : string) :
  same_species sp gdf_joined ->
  (List.length (filter (agg_county (county_counts gdf_joined) c)
                       (agg_rows (county_counts gdf_joined))) <= 1)%nat.
Proof.
  intros Hsp.
  apply filter_at_most_one with (f := group) (k := [VStr c; VStr sp]).
  - rewrite agg_rows_groups; apply key_sorted_NoDup, count_rows_sorted.
  - intros r Hr Hc.
    apply (agg_county_group gdf_joined c r Hr) in Hc; destruct Hc as [sp' Hg].
    pose proof Hr as Hr'; apply agg_rows_In in Hr'; destruct Hr' as [Hr' _].
    apply (count_rows_observed joined_col county_by) in Hr'.
    destruct Hr' as [j [Hj Hk]]; rewrite row_key_county, Hg in Hk.
    destruct (NAME_2 j); [|discriminate].
    injection Hk as _ Hs; rewrite Hg, <- Hs, (Hsp j Hj); reflexivity.
Qed.

(** X5.  A reference county that has an aggregate row appears in the map
    table with that row's species, count and score. *)
Theorem merged_keeps_observed {G P : Type} (county_geo : list (county_feature G))
    (gdf_joined : list (joined P)) (g : county_feature G) (r : agg_row)
    (sp : string) :
  In g county_geo ->
  In r (agg_rows (county_counts gdf_joined)) ->
  group r = [VStr (g_NAME_2 g); VStr sp] ->
  In (mk_merged (g_NAME_2 g) (geometry g) (Some sp) (occurrence_count r)
                (Risk_Score r))
     (merged county_geo gdf_joined).
Proof.
  intros Hg Hr Hgr; unfold merged, fillna_scores, merge_left.
  apply in_map_iff.
  exists (mk_left (g_NAME_2 g) (geometry g) (Some sp)
            (Some (occurrence_count r)) (Some (Risk_Score r))).
  split; [reflexivity|].
  apply in_flat_map; exists g; split; [exact Hg|].
  assert (Hf : In r (filter (agg_county (county_counts gdf_joined) (g_NAME_2 g))
                            (agg_rows (county_counts gdf_joined)))).
  { apply filter_In; split; [exact Hr|].
    apply (agg_county_group gdf_joined _ r Hr); eauto. }
  destruct (filter _ _) as [|a l] eqn:E; [destruct Hf|].
  apply in_map_iff; exists r; split; [|exact Hf].
  rewrite (agg_str_species gdf_joined _ _ r Hgr); reflexivity.
Qed.

Lemma merged_keeps_observed_witness :
  In (mk_merged "Kent" 3%nat (Some "Aedes albopictus") 1 (Risk_Score ex_kent))
     (merged ex_geo ex_joined).
Proof.
  apply (merged_keeps_observed ex_geo ex_joined (mk_feature "Kent" 3%nat)
           ex_kent "Aedes albopictus").
  - simpl; auto.
  - rewrite ex_rows; simpl; auto.
  - reflexivity.
Defined.

Lemma merge_left_feature {G : Type} (county_geo : list (county_feature G))
    (t : scored) (l : left_row G) :
  In l (merge_left county_geo t) ->
  exists g, In g county_geo /\ l_NAME_2 l = g_NAME_2 g
            /\ l_geometry l = geometry g
            /\ ((l_occurrence_count l = None /\ l_Risk_Score l = None)
                \/ exists r, In r (agg_rows t)
                             /\ l_occurrence_count l = Some (occurrence_count r)
                             /\ l_Risk_Score l = Some (Risk_Score r)).
Proof.
  unfold merge_left; intros H; apply in_flat_map in H.
  destruct H as [g [Hg H]]; exists g; split; [exact Hg|].
  destruct (filter _ _) as [|a rest] eqn:E.
  - destruct H as [<-|[]]; simpl; auto.
  - apply in_map_iff in H; destruct H as [r [<- Hr]]; simpl.
    rewrite <- E in Hr; apply filter_In in Hr.
    repeat split; right; exists r; tauto.
Qed.

(** X6.  Every row of the map table is a county of the reference file, with
    its geometry: aggregate rows of a county that the file does not list are
    left out. *)
Theorem merged_only_reference {G P : Type} (county_geo : list (county_feature G))
    (gdf_joined : list (joined P)) (m : merged_row G) :
  In m (merged county_geo gdf_joined) ->
  exists g, In g county_geo /\ m_NAME_2 m = g_NAME_2 g
            /\ m_geometry m = geometry g.
Proof.
  unfold merged, fillna_scores; intros H.
  apply in_map_iff in H; destruct H as [l [<- Hl]].
  destruct (merge_left_feature _ _ _ Hl) as [g [Hg [Hn [Hgeo _]]]].
  exists g; simpl; auto.
Qed.

Lemma merged_only_reference_witness :
  exists g, In g ex_geo /\ "Garrett" = g_NAME_2 g /\ 2%nat = geometry g.
Proof.
  apply (merged_only_reference ex_geo ex_joined
           (mk_merged "Garrett" 2%nat None 0 0%R)).
  unfold merged, fillna_scores, merge_left.
  apply in_map_iff.
  exists (mk_left "Garrett" 2%nat None None None); split; [reflexivity|].
  apply in_flat_map; exists (mk_feature "Garrett" 2%nat); split;
    [simpl; auto|].
  rewrite no_rows_of_county; [left; reflexivity|].
  intros j H; simpl in H.
  destruct H as [<-|[<-|[<-|[<-|[]]]]]; discriminate.
Defined.

(** X7.  In the map table every count is non-negative and every score lies
    between 0.0 and 1.0, the filled rows included. *)
Theorem merged_in_range {G P : Type} (county_geo : list (county_feature G))
    (gdf_joined : list (joined P)) (m : merged_row G) :
  In m (merged county_geo gdf_joined) ->
  0 <= m_occurrence_count m /\ (0 <= m_Risk_Score m <= 1)%R.
Proof.
  unfold merged, fillna_scores; intros H.
  apply in_map_iff in H; destruct H as [l [<- Hl]]; simpl.
  destruct (merge_left_feature _ _ _ Hl)
    as [g [_ [_ [_ [[-> ->]|[r [Hr [-> ->]]]]]]]].
  - split; [lia|lra].
  - split; [pose proof (agg_count_positive gdf_joined r Hr); lia|].
    apply (risk_score_unit_interval gdf_joined r Hr).
Qed.

Lemma merged_in_range_witness :
  0 <= 1 /\ (0 <= Risk_Score ex_kent <= 1)%R.
Proof.
  apply (merged_in_range ex_geo ex_joined
           (mk_merged "Kent" 3%nat (Some "Aedes albopictus") 1
                      (Risk_Score ex_kent))).
  apply (in_map (fun r => mk_merged (l_NAME_2 r) (l_geometry r) (l_species r)
                   (match l_occurrence_count r with Some n => n | None => 0 end)
                   (match l_Risk_Score r with Some x => x | None => 0%R end))
           _ (mk_left "Kent" 3%nat (Some "Aedes albopictus") (Some 1)
                      (Some (Risk_Score ex_kent)))).
  unfold merge_left; apply in_flat_map.
  exists (mk_feature "Kent" 3%nat); split; [simpl; auto|].
  rewrite ex_rows; simpl; auto.
Defined.

(** X8.  When all joined rows are of one species, the map table has exactly
    one row per feature of the reference file, in the file's order. *)
Theorem merged_one_row_per_feature {G P : Type}
    (county_geo : list (county_feature G)) (gdf_joined : list (joined P))
    (sp : string) :
  same_species sp gdf_joined ->
  map (fun m => (m_NAME_2 m, m_geometry m)) (merged county_geo gdf_joined)
  = map (fun g => (g_NAME_2 g, geometry g)) county_geo.
Proof.
  intros Hsp; unfold merged, fillna_scores, merge_left.
  induction county_geo as [|g geo IH]; [reflexivity|].
  cbn [flat_map]; rewrite !map_app, IH; cbn [map]; clear IH.
  pose proof (one_row_per_county gdf_joined sp (g_NAME_2 g) Hsp) as Hone.
  destruct (filter _ _) as [|a [|b rest]]; simpl in *; [reflexivity..|lia].
Qed.

Lemma ex_joined_species : same_species "Aedes albopictus" ex_joined.
Proof.
  intros j H; simpl in H.
  destruct H as [<-|[<-|[<-|[<-|[]]]]]; reflexivity.
Qed.

Lemma merged_one_row_per_feature_witness :
  map (fun m => (m_NAME_2 m, m_geometry m)) (merged ex_geo ex_joined)
  = [("Howard", 1%nat); ("Garrett", 2%nat); ("Kent", 3%nat)].
Proof.
  apply (merged_one_row_per_feature ex_geo ex_joined "Aedes albopictus").
  exact ex_joined_species.
Defined.

(** X9.  The score shown up front for a selected county is between 0.0 and
    1.0, and it is 0 when the county has no occurrence in the joined set. *)
Theorem scores_get_range {P : Type} (gdf_joined : list (joined P)) (c : string) :
  (0 <= scores_get (county_counts gdf_joined) c <= 1)%R
  /\ ((forall j, In j gdf_joined -> NAME_2 j <> Some c) ->
      scores_get (county_counts gdf_joined) c = 0%R).
Proof.
  unfold scores_get; split.
  - destruct (rev _) as [|r l] eqn:E; [lra|].
    assert (Hr : In r (rev (filter (agg_county (county_counts gdf_joined) c)
                                   (agg_rows (county_counts gdf_joined)))))
      by (rewrite E; left; reflexivity).
    apply in_rev, filter_In in Hr.
    apply (risk_score_unit_interval gdf_joined r (proj1 Hr)).
  - intros H; rewrite (no_rows_of_county _ _ H); reflexivity.
Qed.

Lemma scores_get_range_witness :
  scores_get (county_counts ex_joined) "Garrett" = 0%R.
Proof.
  apply (proj2 (scores_get_range ex_joined "Garrett")).
  intros j H; simpl in H.
  destruct H as [<-|[<-|[<-|[<-|[]]]]]; discriminate.
Defined.

(** ** More on the monthly and annual buckets *)

Lemma filter_true_all {A : Type} (p : A -> bool) (l : list A) :
  (forall x, In x l -> p x = true) -> filter p l = l.
Proof.
  induction l as [|a l IH]; simpl; intros H; [reflexivity|].
  rewrite (H a (or_introl eq_refl)), IH; [reflexivity|auto].
Qed.

Lemma filter_twice {A : Type} (p q : A -> bool) (l : list A) :
  filter q (filter p l) = filter (fun x => p x && q x) l.
Proof.
  induction l as [|a l IH]; simpl; [reflexivity|].
  destruct (p a); simpl; [destruct (q a)|]; rewrite IH; reflexivity.
Qed.

Lemma keyed_annual {P : Type} (o : occ P) : keyed occ_col annual_by o = true.
Proof. reflexivity. Qed.

Lemma keyed_monthly {P : Type} (o : occ P) :
  keyed occ_col monthly_by o = dated o.
Proof.
  unfold keyed, dated, monthly_by, occ_col; simpl.
  destruct (year_month o); reflexivity.
Qed.

Lemma keyed_annual_comparison {P : Type} (sel : list string) (j : joined P) :
  isin sel j = true -> keyed joined_col ["year"; "NAME_2"] j = true.
Proof.
  unfold isin, keyed, joined_col, occ_col; simpl.
  destruct (NAME_2 j); [reflexivity|discriminate].
Qed.

Lemma keyed_monthly_comparison {P : Type} (j : joined P) :
  keyed joined_col ["year_month"; "queried_scientificName"; "NAME_2"] j
  = dated (occurrence j)
    && match NAME_2 j with Some _ => true | None => false end.
Proof.
  unfold keyed, dated, joined_col, occ_col; simpl.
  destruct (year_month (occurrence j)), (NAME_2 j); reflexivity.
Qed.

(** X10.  The annual counts add up to the number of rows they were grouped
    from: all cleaned occurrences, or in comparison mode the joined rows of
    the two selected counties. *)
Theorem annual_counts_conserve {P : Type} (compare_counties : bool)
    (county_selection : list string) (df_occ : list (occ P))
    (gdf_joined : list (joined P)) :
  total (body (annual_counts compare_counties county_selection df_occ gdf_joined))
  = Z.of_nat
      (if comparing compare_counties county_selection
       then List.length (filter (isin county_selection) gdf_joined)
       else List.length df_occ).
Proof.
  unfold annual_counts; destruct (comparing _ _); cbn [body groupby_size];
    rewrite count_rows_total; f_equal; f_equal; apply filter_true_all.
  - intros j Hj; apply filter_In in Hj.
    apply (keyed_annual_comparison county_selection), Hj.
  - intros o _; apply keyed_annual.
Qed.

(** X11.  The monthly counts add up to the number of grouped rows whose
    [year_month] is a date, so to no more than the annual counts. *)
Theorem monthly_counts_conserve {P : Type} (compare_counties : bool)
    (county_selection : list string) (df_occ : list (occ P))
    (gdf_joined : list (joined P)) :
  total (body (monthly_counts compare_counties county_selection df_occ gdf_joined))
  = Z.of_nat
      (if comparing compare_counties county_selection
       then List.length
              (filter (fun j => isin county_selection j && dated (occurrence j))
                      gdf_joined)
       else List.length (filter dated df_occ))
  /\ total (body (monthly_counts compare_counties county_selection df_occ gdf_joined))
     <= total (body (annual_counts compare_counties county_selection df_occ gdf_joined)).
Proof.
  assert (E : total (body (monthly_counts compare_counties county_selection
                             df_occ gdf_joined))
              = Z.of_nat
                  (if comparing compare_counties county_selection
                   then List.length
                          (filter (fun j => isin county_selection j
                                            && dated (occurrence j))
                                  gdf_joined)
                   else List.length (filter dated df_occ))).
  { unfold monthly_counts; destruct (comparing _ _); cbn [body groupby_size];
      rewrite count_rows_total; f_equal; f_equal.
    - rewrite filter_twice; apply filter_ext_in; intros j _.
      rewrite keyed_monthly_comparison; unfold isin.
      destruct (NAME_2 j); [rewrite andb_true_r|rewrite andb_false_r];
        reflexivity.
    - apply filter_ext; intros o; apply keyed_monthly. }
  split; [exact E|].
  rewrite E; clear E.
  unfold annual_counts; destruct (comparing _ _); cbn [body groupby_size];
    rewrite count_rows_total; apply Nat2Z.inj_le.
  - rewrite (filter_true_all (keyed joined_col ["year"; "NAME_2"]));
      [|intros j Hj; apply filter_In in Hj;
        apply (keyed_annual_comparison county_selection), Hj].
    rewrite <- filter_twice; apply filter_length_le.
  - rewrite (filter_true_all (keyed occ_col annual_by));
      [|intros o _; apply keyed_annual].
    apply filter_length_le.
Qed.

(** X12.  The lines of the monthly and of the annual table are in strictly
    ascending key order, in either mode: no key occurs twice and the time
    axis runs forward. *)
Theorem temporal_tables_ascending {P : Type} (compare_counties : bool)
    (county_selection : list string) (df_occ : list (occ P))
    (gdf_joined : list (joined P)) :
  let monthly :=
    body (monthly_counts compare_counties county_selection df_occ gdf_joined) in
  let annual :=
    body (annual_counts compare_counties county_selection df_occ gdf_joined) in
  (key_sorted monthly /\ NoDup (map fst monthly))
  /\ (key_sorted annual /\ NoDup (map fst annual)).
Proof.
  unfold monthly_counts, annual_counts; destruct (comparing _ _);
    cbn [body groupby_size]; repeat split;
    try apply key_sorted_NoDup; apply count_rows_sorted.
Qed.

(** X13.  Cleaning keeps exactly the fetched records that have both a year
    and a month, in their order; each kept record has the selected species,
    the year and month it was fetched with and the date assembled from
    them. *)
Theorem clean_dates_keeps_dated {P : Type}
    (to_datetime : Z -> Z -> option (Z * Z)) (selected_species : string)
    (df : list (fetched P)) :
  map (fun o => (Some (year o), Some (month o), meta o))
      (clean_dates to_datetime selected_species df)
  = map (fun r => (f_year r, f_month r, f_meta r)) (filter has_dates df)
  /\ forall o, In o (clean_dates to_datetime selected_species df) ->
               queried_scientificName o = selected_species
               /\ year_month o = to_datetime (year o) (month o).
Proof.
  unfold clean_dates; split.
  - induction df as [|r df IH]; [reflexivity|].
    cbn [flat_map filter]; rewrite map_app, IH; unfold has_dates at 2.
    destruct (f_year r) eqn:Ey, (f_month r) eqn:Em; simpl;
      rewrite ?Ey, ?Em; reflexivity.
  - intros o H; apply in_flat_map in H; destruct H as [r [_ H]].
    destruct (f_year r), (f_month r); simpl in H; try contradiction.
    destruct H as [<-|[]]; simpl; auto.
Qed.

(** X17.  Neither table is zero-filled: every line of the monthly and of the
    annual table counts at least one occurrence, in either mode. *)
Theorem temporal_lines_counted {P : Type} (compare_counties : bool)
    (county_selection : list string) (df_occ : list (occ P))
    (gdf_joined : list (joined P)) (k : key) (n : Z) :
  In (k, n) (body (monthly_counts compare_counties county_selection
                     df_occ gdf_joined))
  \/ In (k, n) (body (annual_counts compare_counties county_selection
                        df_occ gdf_joined)) ->
  1 <= n.
Proof.
  unfold monthly_counts, annual_counts; destruct (comparing _ _);
    cbn [body groupby_size]; intros [H|H];
    eapply count_rows_positive; exact H.
Qed.

Lemma temporal_lines_counted_witness : 1 <= 2.
Proof.
  apply (temporal_lines_counted true ["Howard"; "Kent"] ex_df_occ ex_joined
           [VInt 2022; VStr "Howard"] 2).
  right; vm_compute; auto.
Defined.

(** ** More on the handler *)

Lemma clean_dates_length {P : Type} (to_datetime : Z -> Z -> option (Z * Z))
    (sp : string) (df : list (fetched P)) :
  List.length (clean_dates to_datetime sp df)
  = List.length (filter has_dates df).
Proof.
  unfold clean_dates; induction df as [|r df IH]; [reflexivity|].
  cbn [flat_map filter]; rewrite length_app, IH; unfold has_dates at 2.
  destruct (f_year r), (f_month r); reflexivity.
Qed.

Lemma clean_dates_undated {P : Type} (to_datetime : Z -> Z -> option (Z * Z))
    (sp : string) (df : list (fetched P)) :
  (forall r, In r df -> has_dates r = false) ->
  clean_dates to_datetime sp df = [].
Proof.
  intros H.
  assert (F : filter has_dates df = []).
  { induction df as [|r df IH]; [reflexivity|]; simpl.
    rewrite (H r (or_introl eq_refl)); apply IH; intros; apply H; simpl; auto. }
  pose proof (clean_dates_length to_datetime sp df) as L; rewrite F in L.
  destruct (clean_dates to_datetime sp df); [reflexivity|discriminate].
Qed.

Lemma merged_no_occurrence {G P : Type} (county_geo : list (county_feature G)) :
  merged county_geo (@nil (joined P))
  = map (fun g => mk_merged (g_NAME_2 g) (geometry g) None 0 0%R) county_geo.
Proof.
  unfold merged, fillna_scores, merge_left.
  induction county_geo as [|g geo IH]; [reflexivity|].
  cbn [flat_map]; rewrite map_app, IH; reflexivity.
Qed.

Section RunsFinished.

Variables G P : Type.
Variable get_taxon_key : string -> string + Z.
Variable fetch_occurrences_for_taxon :
  Z -> string -> string -> Z -> Z -> string + list (fetched P).
Variable assign_to_counties : list (occ P) -> list (joined P).
Variable to_datetime : Z -> Z -> option (Z * Z).
Variable county_geo : list (county_feature G).

Local Abbreviation run_here :=
  (run_analysis G P get_taxon_key fetch_occurrences_for_taxon
     assign_to_counties to_datetime county_geo).
Local Abbreviation fetch_here :=
  (fetch P get_taxon_key fetch_occurrences_for_taxon).

Lemma sidebar_no_selection (c : controls) (s : session P) :
  compare_counties c = false \/ ss_gdf_joined s = None ->
  comparing (compare_counties c) (fst (sidebar P c s)) = false.
Proof.
  unfold sidebar, comparing; intros [H|H].
  - rewrite H; reflexivity.
  - rewrite H; destruct (compare_counties c); reflexivity.
Qed.

(** The events and tables of a run whose fetch returned [rows], a non-empty
    list. *)
Lemma run_finished (c : controls) (s : session P) (rows : list (fetched P)) :
  fetch_here c = inr rows -> rows <> [] ->
  let county_selection := fst (sidebar P c s) in
  let df_occ := clean_dates to_datetime (selected_species c) rows in
  let gdf_joined := assign_to_counties df_occ in
  let cmp := comparing (compare_counties c) county_selection in
  let monthly :=
    if show_monthly c then
      Some (monthly_counts (compare_counties c) county_selection df_occ gdf_joined)
    else None in
  let annual :=
    annual_counts (compare_counties c) county_selection df_occ gdf_joined in
  run_here c s
  = Finished
      ([St_info "Fetching live GBIF data…"]
       ++ (if cmp then
             [St_scores (nth 0 county_selection "")
                (scores_get (county_counts gdf_joined) (nth 0 county_selection ""))
                (nth 1 county_selection "")
                (scores_get (county_counts gdf_joined) (nth 1 county_selection ""))]
           else [])
       ++ [St_success (List.length df_occ);
           St_subheader "Hotspot Map";
           St_plotly_chart (Choropleth (merged county_geo gdf_joined))]
       ++ match monthly with
          | Some t =>
              [St_subheader "Monthly Presence Over Time";
               St_plotly_chart (monthly_figure G cmp t)]
          | None => []
          end
       ++ [St_subheader "Annual Presence Summary";
           St_plotly_chart (annual_figure G cmp annual)])
      (mk_session (Some gdf_joined) (ss_county_selection (snd (sidebar P c s))))
      (mk_tables df_occ gdf_joined (county_counts gdf_joined)
         (merged county_geo gdf_joined) monthly annual).
Proof.
  intros H Hne; unfold run_analysis.
  destruct (sidebar P c s) as [sel s']; rewrite H.
  destruct rows as [|r rows]; [congruence|reflexivity].
Qed.

End RunsFinished.

(** X14.  When the fetch returns at least one record the run completes: the
    joined dataset it computed is stored in the session, and the success
    message counts the records that have both a year and a month, not the
    records fetched. *)
Theorem run_completes_on_records (G P : Type)
    (get_taxon_key : string -> string + Z)
    (fetch_occurrences_for_taxon :
       Z -> string -> string -> Z -> Z -> string + list (fetched P))
    (assign_to_counties : list (occ P) -> list (joined P))
    (to_datetime : Z -> Z -> option (Z * Z))
    (county_geo : list (county_feature G))
    (c : controls) (s : session P) (rows : list (fetched P)) :
  fetch P get_taxon_key fetch_occurrences_for_taxon c = inr rows ->
  rows <> [] ->
  let r := run_analysis G P get_taxon_key fetch_occurrences_for_taxon
             assign_to_counties to_datetime county_geo c s in
  exists out,
    results r = Some out
    /\ ss_gdf_joined (session_after r) = Some (t_gdf_joined out)
    /\ In (St_success (List.length (filter has_dates rows))) (shown r)
    /\ forall msg, ~ In (St_warning msg) (shown r)
                   /\ ~ In (St_error msg) (shown r).
Proof.
  intros H Hne r; subst r.
  rewrite (run_finished _ _ _ _ _ _ _ _ _ _ H Hne); cbn [results session_after shown].
  eexists; split; [reflexivity|]; cbn [t_gdf_joined ss_gdf_joined].
  split; [reflexivity|]; split.
  - rewrite <- (clean_dates_length to_datetime (selected_species c)).
    apply in_or_app; right; apply in_or_app; right; left; reflexivity.
  - intros msg; split; intros Hin;
      repeat (apply in_app_or in Hin; destruct Hin as [Hin|Hin]);
      repeat match goal with
             | H : In _ (if ?b then _ else _) |- _ => destruct b
             | H : In _ (match ?b with Some _ => _ | None => _ end) |- _ =>
                 destruct b
             end;
      simpl in Hin; intuition discriminate.
Qed.

Lemma run_completes_on_records_witness :
  exists out,
    results (run_analysis nat unit ex_get_taxon_key ex_fetch ex_assign
               ex_to_datetime ex_geo ex_controls ex_session) = Some out
    /\ ss_gdf_joined
         (session_after
            (run_analysis nat unit ex_get_taxon_key ex_fetch ex_assign
               ex_to_datetime ex_geo ex_controls ex_session))
       = Some (t_gdf_joined out)
    /\ In (St_success 2)
          (shown (run_analysis nat unit ex_get_taxon_key ex_fetch ex_assign
                    ex_to_datetime ex_geo ex_controls ex_session))
    /\ forall msg,
         ~ In (St_warning msg)
              (shown (run_analysis nat unit ex_get_taxon_key ex_fetch ex_assign
                        ex_to_datetime ex_geo ex_controls ex_session))
         /\ ~ In (St_error msg)
                 (shown (run_analysis nat unit ex_get_taxon_key ex_fetch
                           ex_assign ex_to_datetime ex_geo ex_controls
                           ex_session)).
Proof.
  apply (run_completes_on_records nat unit ex_get_taxon_key ex_fetch ex_assign
           ex_to_datetime ex_geo ex_controls ex_session ex_fetched).
  - reflexivity.
  - discriminate.
Defined.

(** X15.  With the comparison box unticked, or before any run has stored a
    joined dataset, a run never compares: no scores are shown up front and
    the annual and monthly tables are grouped by species over all cleaned
    occurrences, whatever the county selector holds. *)
Theorem no_comparison_without_data (G P : Type)
    (get_taxon_key : string -> string + Z)
    (fetch_occurrences_for_taxon :
       Z -> string -> string -> Z -> Z -> string + list (fetched P))
    (assign_to_counties : list (occ P) -> list (joined P))
    (to_datetime : Z -> Z -> option (Z * Z))
    (county_geo : list (county_feature G))
    (c : controls) (s : session P) (out : tables G P) :
  compare_counties c = false \/ ss_gdf_joined s = None ->
  let r := run_analysis G P get_taxon_key fetch_occurrences_for_taxon
             assign_to_counties to_datetime county_geo c s in
  results r = Some out ->
  t_annual_counts out = groupby_size occ_col annual_by "count" (t_df_occ out)
  /\ t_monthly_counts out
     = (if show_monthly c
        then Some (groupby_size occ_col monthly_by "count" (t_df_occ out))
        else None)
  /\ forall c0 x0 c1 x1, ~ In (St_scores c0 x0 c1 x1) (shown r).
Proof.
  intros Hno r; subst r.
  pose proof (sidebar_no_selection P c s Hno) as Hcmp.
  destruct (fetch P get_taxon_key fetch_occurrences_for_taxon c)
    as [e|rows] eqn:Hf.
  - rewrite (run_fetch_raises _ _ _ _ _ _ _ _ _ _ Hf); discriminate.
  - destruct rows as [|r0 rows].
    + rewrite (run_fetch_empty _ _ _ _ _ _ _ _ _ Hf); discriminate.
    + assert (Hne : r0 :: rows <> []) by discriminate.
      rewrite (run_finished _ _ _ _ _ _ _ _ _ _ Hf Hne).
      cbn [results shown]; intros [= <-]; cbn [t_annual_counts t_monthly_counts t_df_occ].
      unfold annual_counts, monthly_counts; rewrite Hcmp.
      split; [reflexivity|split; [reflexivity|]].
      intros c0 x0 c1 x1 Hin.
      repeat (apply in_app_or in Hin; destruct Hin as [Hin|Hin]);
        repeat match goal with
               | H : In _ (match ?b with Some _ => _ | None => _ end) |- _ =>
                   destruct b
               end;
        simpl in Hin; intuition discriminate.
Qed.

Lemma no_comparison_without_data_witness :
  exists out,
    results (run_analysis nat unit ex_get_taxon_key ex_fetch ex_assign
               ex_to_datetime ex_geo ex_controls_comparing ex_session)
    = Some out
    /\ t_annual_counts out
       = groupby_size occ_col annual_by "count" (t_df_occ out).
Proof.
  eexists; split; [reflexivity|].
  apply (no_comparison_without_data nat unit ex_get_taxon_key ex_fetch ex_assign
           ex_to_datetime ex_geo ex_controls_comparing ex_session);
    [right; reflexivity|reflexivity].
Defined.

(** X16.  When every fetched record lacks a year or a month, and the
    assigner joins nothing from nothing, the run still completes without a
    warning: it reports 0 records, the aggregate table is empty and every
    county of the map has count 0 and score 0. *)
Theorem undated_fetch_completes_empty (G P : Type)
    (get_taxon_key : string -> string + Z)
    (fetch_occurrences_for_taxon :
       Z -> string -> string -> Z -> Z -> string + list (fetched P))
    (assign_to_counties : list (occ P) -> list (joined P))
    (to_datetime : Z -> Z -> option (Z * Z))
    (county_geo : list (county_feature G))
    (c : controls) (s : session P) (rows : list (fetched P)) :
  fetch P get_taxon_key fetch_occurrences_for_taxon c = inr rows ->
  rows <> [] ->
  (forall r, In r rows -> has_dates r = false) ->
  assign_to_counties [] = [] ->
  let r := run_analysis G P get_taxon_key fetch_occurrences_for_taxon
             assign_to_counties to_datetime county_geo c s in
  exists out,
    results r = Some out
    /\ In (St_success 0) (shown r)
    /\ agg_rows (t_county_counts out) = []
    /\ body (t_annual_counts out) = []
    /\ t_merged out
       = map (fun g => mk_merged (g_NAME_2 g) (geometry g) None 0 0%R)
             county_geo.
Proof.
  intros H Hne Hall Hnil r; subst r.
  rewrite (run_finished _ _ _ _ _ _ _ _ _ _ H Hne).
  rewrite (clean_dates_undated to_datetime _ _ Hall), Hnil.
  eexists; split; [reflexivity|].
  cbn [results shown t_county_counts t_annual_counts t_merged].
  split; [apply in_or_app; right; apply in_or_app; right; left; reflexivity|].
  split; [reflexivity|]; split.
  - unfold annual_counts; destruct (comparing _ _); reflexivity.
  - apply merged_no_occurrence.
Qed.

Lemma undated_fetch_completes_empty_witness :
  exists out,
    results (run_analysis nat unit ex_get_taxon_key ex_fetch_undated ex_assign
               ex_to_datetime ex_geo ex_controls ex_session) = Some out
    /\ In (St_success 0)
          (shown (run_analysis nat unit ex_get_taxon_key ex_fetch_undated
                    ex_assign ex_to_datetime ex_geo ex_controls ex_session))
    /\ agg_rows (t_county_counts out) = []
    /\ body (t_annual_counts out) = []
    /\ t_merged out
       = map (fun g => mk_merged (g_NAME_2 g) (geometry g) None 0 0%R) ex_geo.
Proof.
  apply (undated_fetch_completes_empty nat unit ex_get_taxon_key
           ex_fetch_undated ex_assign ex_to_datetime ex_geo ex_controls
           ex_session
           [mk_fetched (Some 2021) None tt; mk_fetched None (Some 3) tt]).
  - reflexivity.
  - discriminate.
  - intros r [<-|[<-|[]]]; reflexivity.
  - reflexivity.
Defined.

(** X18.  In comparison mode with two counties selected and a joined dataset
    stored by an earlier run, a completing run shows the two counties with
    their scores in the table of this run, and remembers the selection. *)
Theorem comparison_scores_shown (G P : Type)
    (get_taxon_key : string -> string + Z)
    (fetch_occurrences_for_taxon :
       Z -> string -> string -> Z -> Z -> string + list (fetched P))
    (assign_to_counties : list (occ P) -> list (joined P))
    (to_datetime : Z -> Z -> option (Z * Z))
    (county_geo : list (county_feature G))
    (c : controls) (s : session P) (rows : list (fetched P))
    (earlier : list (joined P)) (a b : string) :
  fetch P get_taxon_key fetch_occurrences_for_taxon c = inr rows ->
  rows <> [] ->
  compare_counties c = true ->
  ss_gdf_joined s = Some earlier ->
  multiselect c = [a; b] ->
  let r := run_analysis G P get_taxon_key fetch_occurrences_for_taxon
             assign_to_counties to_datetime county_geo c s in
  exists out,
    results r = Some out
    /\ In (St_scores a (scores_get (t_county_counts out) a)
                     b (scores_get (t_county_counts out) b))
          (shown r)
    /\ ss_county_selection (session_after r) = [a; b]
    /\ t_county_counts out = county_counts (t_gdf_joined out).
Proof.
  intros H Hne Hc Hs Hm r; subst r.
  rewrite (run_finished _ _ _ _ _ _ _ _ _ _ H Hne).
  unfold sidebar; rewrite Hc, Hs, Hm; cbn [fst snd].
  eexists; split; [reflexivity|].
  cbn [results shown session_after t_county_counts t_gdf_joined
       ss_county_selection comparing List.length Nat.eqb andb nth].
  split; [|split; reflexivity].
  right; left; reflexivity.
Qed.

Lemma comparison_scores_shown_witness :
  exists out,
    results (run_analysis nat unit ex_get_taxon_key ex_fetch ex_assign
               ex_to_datetime ex_geo ex_controls_comparing
               (mk_session (Some ex_joined) [])) = Some out
    /\ In (St_scores "Howard" (scores_get (t_county_counts out) "Howard")
                     "Kent" (scores_get (t_county_counts out) "Kent"))
          (shown (run_analysis nat unit ex_get_taxon_key ex_fetch ex_assign
                    ex_to_datetime ex_geo ex_controls_comparing
                    (mk_session (Some ex_joined) [])))
    /\ ss_county_selection
         (session_after
            (run_analysis nat unit ex_get_taxon_key ex_fetch ex_assign
               ex_to_datetime ex_geo ex_controls_comparing
               (mk_session (Some ex_joined) [])))
       = ["Howard"; "Kent"]
    /\ t_county_counts out = county_counts (t_gdf_joined out).
Proof.
  apply (comparison_scores_shown nat unit ex_get_taxon_key ex_fetch ex_assign
           ex_to_datetime ex_geo ex_controls_comparing
           (mk_session (Some ex_joined) []) ex_fetched ex_joined
           "Howard" "Kent").
  - reflexivity.
  - discriminate.
  - reflexivity.
  - reflexivity.
  - reflexivity.
Defined.
